(** * Initiative effects of the automation engine

    A shallow embedding of [cogs5e/models/automation/effects/ieffect.py]:
    the two automation nodes [LegacyIEffect] and [IEffect], whose [run]
    method builds an initiative effect, renames it when it stacks on an
    effect of the same name, picks its parent, and adds it to the target
    combatant.

    Python objects are records; the objects that [run] only reaches through
    the automation context (the combatants' effect lists, the metavariable
    table, the message queue) are fields of the context, which [run] threads
    explicitly.  A raised exception is an [outcome].  A [str] is the string
    of the bytes of its UTF-8 encoding. *)

From stdpp Require Import gmap strings list fin_maps pretty.

Open Scope string_scope.
Open Scope Z_scope.

(** ** Exceptions and the outcome of a call *)

(** The exception classes [run] raises, each with its message. *)
Inductive error : Type :=
| TargetException (msg : string)
| AutomationException (msg : string)
| InvalidArgument (msg : string).

(** What a call does: it returns a value, raises, or (for a call that holds
    a [while] loop run on fuel) uses up its fuel. *)
Inductive outcome (A : Type) : Type :=
| Returned (a : A)
| Raised (e : error)
| OutOfFuel.

Arguments Returned {A} a.
Arguments Raised {A} e.
Arguments OutOfFuel {A}.

#[global] Instance outcome_ret : MRet outcome := fun A a => Returned a.
#[global] Instance outcome_bind : MBind outcome := fun A B f m =>
  match m with
  | Returned a => f a
  | Raised e => Raised e
  | OutOfFuel => OutOfFuel
  end.

(** Python's [a or b] on values that are [None] or an object without
    [__bool__] and [__len__]: the first one that is not [None]. *)
Definition py_or {A : Type} (a b : option A) : option A :=
  match a with
  | Some _ => a
  | None => b
  end.

(** ** The payload types

    [init.effects.InitPassiveEffect], [AttackInteraction] and
    [ButtonInteraction], and the three wrappers that resolve to them, are
    opaque to this file: their classes have no body here. *)
Class Payloads : Type := {
  PassiveEffectsWrapper : Type;
  AttackInteractionWrapper : Type;
  ButtonInteractionWrapper : Type;
  InitPassiveEffect : Type;
  AttackInteraction : Type;
  ButtonInteraction : Type;
}.

(** What an initiative effect carries: the legacy node passes
    [effect_args], the current one [passive_effects], [attacks] and
    [buttons]. *)
Inductive payload `{Payloads} : Type :=
| EffectArgs (effect_args : string)
| Interactions (passive_effects : InitPassiveEffect)
    (attacks : list AttackInteraction) (buttons : list ButtonInteraction).

(** ** Combatants and initiative effects *)

(** An [init.Combatant] as far as [run] looks at it: its identity (Python
    compares combatants with [is]) and the combat it is in.  Its effect list
    lives in the context, under the combatant's identity. *)
Record Combatant : Type := {
  c_id : nat;
  c_combat : nat;
}.

(** What [autoctx.target.target] can be: a combatant, or a stat block that is
    in no combat. *)
Inductive entity : Type :=
| InCombat (c : Combatant)
| StatBlock (n : nat).

(** [init.InitiativeEffect].  [e_id] is the identity of the object;
    [e_combatant] is its owner, by identity; [e_parent] is the identity of
    the parent effect. *)
Record InitiativeEffect `{Payloads} : Type := {
  e_id : nat;
  e_combat : option nat;
  e_combatant : option nat;
  e_name : string;
  e_duration : option Z;
  e_remaining : option Z;
  e_payload : payload;
  e_end_on_turn_end : bool;
  e_concentration : bool;
  e_desc : option string;
  e_parent : option nat;
}.

(** The assignments [run] makes to the attributes of an effect. *)
Definition set_name `{Payloads} (e : InitiativeEffect) (n : string) : InitiativeEffect :=
  {| e_id := e_id e; e_combat := e_combat e; e_combatant := e_combatant e;
     e_name := n; e_duration := e_duration e; e_remaining := e_remaining e;
     e_payload := e_payload e; e_end_on_turn_end := e_end_on_turn_end e;
     e_concentration := e_concentration e; e_desc := e_desc e;
     e_parent := e_parent e |}.

Definition set_desc `{Payloads} (e : InitiativeEffect) (d : option string) : InitiativeEffect :=
  {| e_id := e_id e; e_combat := e_combat e; e_combatant := e_combatant e;
     e_name := e_name e; e_duration := e_duration e; e_remaining := e_remaining e;
     e_payload := e_payload e; e_end_on_turn_end := e_end_on_turn_end e;
     e_concentration := e_concentration e; e_desc := d;
     e_parent := e_parent e |}.

Definition set_duration_remaining `{Payloads} (e : InitiativeEffect) (d : option Z) : InitiativeEffect :=
  {| e_id := e_id e; e_combat := e_combat e; e_combatant := e_combatant e;
     e_name := e_name e; e_duration := d; e_remaining := d;
     e_payload := e_payload e; e_end_on_turn_end := e_end_on_turn_end e;
     e_concentration := e_concentration e; e_desc := e_desc e;
     e_parent := e_parent e |}.

Definition set_concentration `{Payloads} (e : InitiativeEffect) (b : bool) : InitiativeEffect :=
  {| e_id := e_id e; e_combat := e_combat e; e_combatant := e_combatant e;
     e_name := e_name e; e_duration := e_duration e; e_remaining := e_remaining e;
     e_payload := e_payload e; e_end_on_turn_end := e_end_on_turn_end e;
     e_concentration := b; e_desc := e_desc e;
     e_parent := e_parent e |}.

(** Modelled from the spec: [InitiativeEffect.set_parent] is not in this
    file.  "If a parent is selected, assign it to effect.parent": the parent
    is kept as a back-reference, here the parent's identity. *)
Definition set_parent `{Payloads} (e parent : InitiativeEffect) : InitiativeEffect :=
  {| e_id := e_id e; e_combat := e_combat e; e_combatant := e_combatant e;
     e_name := e_name e; e_duration := e_duration e; e_remaining := e_remaining e;
     e_payload := e_payload e; e_end_on_turn_end := e_end_on_turn_end e;
     e_concentration := e_concentration e; e_desc := e_desc e;
     e_parent := Some (e_id parent) |}.

(** Modelled from the spec: [Combatant.get_effect] is not in this file.
    With [strict=True] it is the "strict name match — case-sensitive,
    exact": the first effect of the collection with that very name, or
    [None]. *)
Definition get_effect `{Payloads} (effects : list InitiativeEffect) (name : string)
  : option InitiativeEffect :=
  List.find (fun e => String.eqb (e_name e) name) effects.

(** ** Values of the metavariable table *)

(** A value stored in [autoctx.metavars]: Python's [None], numbers, strings
    and booleans, an object of some other class, or an [IEffectMetaVar],
    the proxy that holds a reference to a created effect. *)
Inductive value `{Payloads} : Type :=
| VNone
| VInt (n : Z)
| VStr (s : string)
| VBool (b : bool)
| VObject (class_name : string)
| IEffectMetaVar (_effect : InitiativeEffect).

(** [type(v).__name__]. *)
Definition type_name `{Payloads} (v : value) : string :=
  match v with
  | VNone => "NoneType"
  | VInt _ => "int"
  | VStr _ => "str"
  | VBool _ => "bool"
  | VObject c => c
  | IEffectMetaVar _ => "IEffectMetaVar"
  end.

(** ** The automation context *)

(** The calls [run] makes on the effect and on the target combatant that
    change them; the context keeps them in order, latest first.  A call of
    [add_effect] is kept with the effects the combatant had when it was
    made. *)
Inductive call `{Payloads} : Type :=
| CallSetParent (child parent : InitiativeEffect)
| CallAddEffect (combatant : nat) (existing : list InitiativeEffect)
    (effect : InitiativeEffect).

(** [autoctx.target], an [AutomationTarget]. *)
Record AutomationTarget : Type := {
  t_target : entity;
}.

(** Modelled from the spec: the [combatant] property of [AutomationTarget]
    is not in this file.  It is the target's "combatant representation": the
    target itself when it takes part in a combat, [None] otherwise. *)
Definition t_combatant (t : AutomationTarget) : option Combatant :=
  match t_target t with
  | InCombat c => Some c
  | StatBlock _ => None
  end.

(** The automation context and what [run] reaches through it.
    - [target]: [autoctx.target], [None] outside of a Target node;
    - [conc_effect]: the concentration effect of the running spell;
    - [metavars]: the metavariable table, a dict;
    - [args_dur]: the caller's [dur] argument, when it gave one;
    - [queued]: the messages queued so far, latest first;
    - [combatants]: the effect list of every combatant, by identity;
    - [next_effect_id]: the identity the next created effect gets;
    - [calls]: the calls made so far on effects and combatants, latest
      first. *)
Record AutoCtx `{Payloads} : Type := {
  target : option AutomationTarget;
  conc_effect : option InitiativeEffect;
  metavars : gmap string value;
  args_dur : option Z;
  queued : list string;
  combatants : gmap nat (list InitiativeEffect);
  next_effect_id : nat;
  calls : list call;
}.

Definition with_metavars `{Payloads} (a : AutoCtx) (m : gmap string value) : AutoCtx :=
  {| target := target a; conc_effect := conc_effect a; metavars := m;
     args_dur := args_dur a; queued := queued a; combatants := combatants a;
     next_effect_id := next_effect_id a; calls := calls a |}.

Definition with_queued `{Payloads} (a : AutoCtx) (q : list string) : AutoCtx :=
  {| target := target a; conc_effect := conc_effect a; metavars := metavars a;
     args_dur := args_dur a; queued := q; combatants := combatants a;
     next_effect_id := next_effect_id a; calls := calls a |}.

Definition with_combatants `{Payloads} (a : AutoCtx)
    (cs : gmap nat (list InitiativeEffect)) : AutoCtx :=
  {| target := target a; conc_effect := conc_effect a; metavars := metavars a;
     args_dur := args_dur a; queued := queued a; combatants := cs;
     next_effect_id := next_effect_id a; calls := calls a |}.

Definition with_next_effect_id `{Payloads} (a : AutoCtx) (n : nat) : AutoCtx :=
  {| target := target a; conc_effect := conc_effect a; metavars := metavars a;
     args_dur := args_dur a; queued := queued a; combatants := combatants a;
     next_effect_id := n; calls := calls a |}.

Definition with_calls `{Payloads} (a : AutoCtx) (cs : list call) : AutoCtx :=
  {| target := target a; conc_effect := conc_effect a; metavars := metavars a;
     args_dur := args_dur a; queued := queued a; combatants := combatants a;
     next_effect_id := next_effect_id a; calls := cs |}.

(** The effects now on a combatant. *)
Definition effects_of `{Payloads} (a : AutoCtx) (c : Combatant) : list InitiativeEffect :=
  default [] (combatants a !! c_id c).

(** [autoctx.queue(msg)]. *)
Definition queue `{Payloads} (a : AutoCtx) (msg : string) : AutoCtx :=
  with_queued a (msg :: queued a).

(** Modelled from the spec: [ParsedArguments.last] is not in this file.  "An
    explicit override duration supplied by the caller's argument set (if
    present) takes precedence over the resolved value":
    [autoctx.args.last("dur", default, int)]. *)
Definition args_last_dur `{Payloads} (a : AutoCtx) (default : option Z) : option Z :=
  match args_dur a with
  | Some d => Some d
  | None => default
  end.

(** Modelled from the spec: [InitiativeEffect.new] is not in this file.  It
    builds the effect from its arguments, with a new identity, the whole
    duration remaining and no parent. *)
Definition InitiativeEffect_new `{Payloads} (a : AutoCtx)
    (combat combatant : option nat) (name : string) (duration : option Z)
    (p : payload) (end_on_turn_end concentration : bool) (desc : option string)
  : InitiativeEffect * AutoCtx :=
  ({| e_id := next_effect_id a; e_combat := combat; e_combatant := combatant;
      e_name := name; e_duration := duration; e_remaining := duration;
      e_payload := p; e_end_on_turn_end := end_on_turn_end;
      e_concentration := concentration; e_desc := desc; e_parent := None |},
   with_next_effect_id a (S (next_effect_id a))).

(** ** The collaborators

    The methods [run] calls that live outside of this file and that the spec
    leaves to "external collaborators": the expression evaluator of the
    context ([None] when it raises), its string annotator, the wrappers'
    [resolve], the rendering of an effect, and what [Combatant.add_effect]
    does to the effect list of the combatant (the new list and the
    concentration effects it dropped). *)
Class Collaborators `{Payloads} : Type := {
  parse_intexpression : AutoCtx -> string -> option Z;
  parse_annostr : AutoCtx -> string -> string;
  resolve_passive : PassiveEffectsWrapper -> AutoCtx -> InitPassiveEffect;
  resolve_attack : AttackInteractionWrapper -> AutoCtx -> AttackInteraction;
  resolve_button : ButtonInteractionWrapper -> AutoCtx -> ButtonInteraction;
  default_passive : InitPassiveEffect;
  get_str : InitiativeEffect -> string;
  add_effect : list InitiativeEffect -> InitiativeEffect ->
               list InitiativeEffect * list InitiativeEffect;
}.

(** ** The two automation nodes *)

(** The [duration] attribute of a node: an [int], a [str] to evaluate, or
    [None]. *)
Inductive duration_attr : Type :=
| DurInt (n : Z)
| DurStr (expr : string)
| DurNone.

(** [LegacyIEffect], by its attributes. *)
Record LegacyIEffect : Type := {
  l_name : string;
  l_duration : duration_attr;
  l_effects : string;
  l_tick_on_end : bool;
  l_concentration : bool;
  l_desc : option string;
  l_stacking : bool;
  l_save_as : option string;
  l_parent : option string;
}.

(** [IEffect], by its attributes. *)
Record IEffect `{Payloads} : Type := {
  name : string;
  duration : duration_attr;
  effects : option PassiveEffectsWrapper;
  attacks : list AttackInteractionWrapper;
  buttons : list ButtonInteractionWrapper;
  end_on_turn_end : bool;
  concentration : bool;
  desc : option string;
  stacking : bool;
  save_as : option string;
  parent : option string;
}.

(** [IEffectResult]. *)
Record IEffectResult `{Payloads} : Type := {
  effect : InitiativeEffect;
  conc_conflict : list InitiativeEffect;
}.

(** ** Strings

    A Python [str] is a sequence of code points.  It is held here as its
    UTF-8 encoding, a [string] of bytes: a code point is a byte that is not
    a continuation byte ([10xxxxxx]), with the continuation bytes that
    follow it.  Concatenation and equality are those of the bytes; the
    length and the slices count code points. *)
Definition is_continuation (c : Ascii.ascii) : bool :=
  (N.land (Ascii.N_of_ascii c) 192 =? 128)%N.

(** [len(s)]. *)
Fixpoint len (s : string) : nat :=
  match s with
  | "" => 0%nat
  | String c s' => if is_continuation c then len s' else S (len s')
  end.

(** [s[:k]]: the first [k] code points of [s], or all of [s] when it has
    fewer. *)
Fixpoint slice_to (k : nat) (s : string) : string :=
  match s with
  | "" => ""
  | String c s' =>
      if is_continuation c then String c (slice_to k s')
      else match k with
           | O => ""
           | S k' => String c (slice_to k' s')
           end
  end.

(** ** The blocks of [run]

    The two [run] methods have the same text from the duration to the
    description and from [conc_parent = None] to the [save_as] assignment;
    each block is written once here. *)

(** The duration, before the [dur] argument:
<<
    if isinstance(self.duration, str):
        try:
            duration = autoctx.parse_intexpression(self.duration)
        except Exception:
            raise AutomationException(f"{self.duration} is not an integer (in effect duration)")
    else:
        duration = self.duration
>> *)
Definition eval_duration `{Collaborators} (d : duration_attr) (autoctx : AutoCtx)
  : outcome (option Z) :=
  match d with
  | DurStr expr =>
      match parse_intexpression autoctx expr with
      | Some n => Returned (Some n)
      | None => Raised (AutomationException (expr +:+ " is not an integer (in effect duration)"))
      end
  | DurInt n => Returned (Some n)
  | DurNone => Returned None
  end.

(** The description:
<<
    if self.desc:
        desc = autoctx.parse_annostr(self.desc)
        if len(desc) > 500:
            desc = f"{desc[:500]}..."
    else:
        desc = None
>> *)
Definition eval_desc `{Collaborators} (d : option string) (autoctx : AutoCtx)
  : option string :=
  match d with
  | None | Some "" => None
  | Some s =>
      let desc := parse_annostr autoctx s in
      if (500 <? len desc)%nat
      then Some (slice_to 500 desc +:+ "...")
      else Some desc
  end.

(** Is the combatant of the effect the very combatant [c]? *)
Definition combatant_is `{Payloads} (e : InitiativeEffect) (c : Combatant) : bool :=
  match e_combatant e with
  | Some i => Nat.eqb i (c_id c)
  | None => false
  end.

(** The concentration block; it returns [conc_parent].  An effect is an
    object without [__bool__] and [__len__], so [if autoctx.conc_effect]
    asks whether it is there:
<<
    if autoctx.conc_effect:
        if autoctx.conc_effect.combatant is autoctx.target.target and self.concentration:
            raise InvalidArgument("Concentration spells cannot add concentration effects to the caster.")
        conc_parent = autoctx.conc_effect
>> *)
Definition concentration_spells `{Payloads} (self_concentration : bool)
    (c : Combatant) (autoctx : AutoCtx) : outcome (option InitiativeEffect) :=
  match conc_effect autoctx with
  | Some ce =>
      if combatant_is ce c && self_concentration
      then Raised (InvalidArgument
             "Concentration spells cannot add concentration effects to the caster.")
      else Returned (Some ce)
  | None => Returned None
  end.

(** [f"{original_name} x{count}"]. *)
Definition stack_name (original_name : string) (count : nat) : string :=
  original_name +:+ " x" +:+ pretty count.

(** The renaming loop, entered with [count]; it returns the last name
    assigned, the one that no effect of the target has:
<<
    effect.name = f"{original_name} x{count}"
    while autoctx.target.target.get_effect(effect.name, strict=True):
        count += 1
        effect.name = f"{original_name} x{count}"
>> *)
Fixpoint rename_loop `{Payloads} (fuel : nat) (existing : list InitiativeEffect)
    (original_name : string) (count : nat) : option string :=
  match fuel with
  | O => None
  | S fuel' =>
      match get_effect existing (stack_name original_name count) with
      | Some _ => rename_loop fuel' existing original_name (S count)
      | None => Some (stack_name original_name count)
      end
  end.

(** The stacking block; it returns the effect and [stack_parent].  The loop
    runs on one unit of fuel more than the target has effects.
<<
    if self.stacking and (stack_parent := autoctx.target.target.get_effect(effect.name, strict=True)):
        count = 2
        effect.desc = None
        effect.duration = effect.remaining = -1
        effect.concentration = False
        original_name = effect.name
        ...
>> *)
Definition stacking_block `{Payloads} (self_stacking : bool)
    (existing : list InitiativeEffect) (effect : InitiativeEffect)
  : outcome (InitiativeEffect * option InitiativeEffect) :=
  if self_stacking then
    match get_effect existing (e_name effect) with
    | Some stack_parent =>
        let count := 2%nat in
        let effect := set_desc effect None in
        let effect := set_duration_remaining effect (Some (-1)) in
        let effect := set_concentration effect false in
        let original_name := e_name effect in
        match rename_loop (S (length existing)) existing original_name count with
        | Some n => Returned (set_name effect n, Some stack_parent)
        | None => OutOfFuel
        end
    | None => Returned (effect, None)
    end
  else Returned (effect, None).

(** The parenting block up to [explicit_parent]:
<<
    explicit_parent = None
    if self.parent is not None and (parent_ref := autoctx.metavars.get(self.parent, None)) is not None:
        if not isinstance(parent_ref, IEffectMetaVar):
            raise InvalidArgument(
                f"Could not set IEffect parent: The variable `{self.parent}` is not an IEffectMetaVar "
                f"(got `{type(parent_ref).__name__}`)."
            )
        explicit_parent = parent_ref._effect
>> *)
Definition parenting `{Payloads} (self_parent : option string) (autoctx : AutoCtx)
  : outcome (option InitiativeEffect) :=
  match self_parent with
  | None => Returned None
  | Some p =>
      match metavars autoctx !! p with
      | None | Some VNone => Returned None
      | Some (IEffectMetaVar e) => Returned (Some e)
      | Some parent_ref =>
          Raised (InvalidArgument
            ("Could not set IEffect parent: The variable `" +:+ p +:+
             "` is not an IEffectMetaVar (got `" +:+ type_name parent_ref +:+ "`)."))
      end
  end.

(** The choice of the parent and its assignment:
<<
    if parent_effect := stack_parent or explicit_parent or conc_parent:
        effect.set_parent(parent_effect)
>> *)
Definition choose_parent `{Payloads}
    (stack_parent explicit_parent conc_parent : option InitiativeEffect)
    (effect : InitiativeEffect) (autoctx : AutoCtx) : InitiativeEffect * AutoCtx :=
  match py_or (py_or stack_parent explicit_parent) conc_parent with
  | Some parent_effect =>
      (set_parent effect parent_effect,
       with_calls autoctx (CallSetParent effect parent_effect :: calls autoctx))
  | None => (effect, autoctx)
  end.

(** [autoctx.target.target.add_effect(effect)]: the combatant's effect list
    becomes what [add_effect] makes of it; the call returns
    [effect_result["conc_conflict"]]. *)
Definition call_add_effect `{Collaborators} (c : Combatant) (effect : InitiativeEffect)
    (autoctx : AutoCtx) : list InitiativeEffect * AutoCtx :=
  let '(effects', conflict) := add_effect (effects_of autoctx c) effect in
  (conflict,
   with_calls
     (with_combatants autoctx (<[c_id c := effects']> (combatants autoctx)))
     (CallAddEffect (c_id c) (effects_of autoctx c) effect :: calls autoctx)).

(** The lines of [run] in a combat, after the creation of the effect: from
    [conc_parent = None] to the [save_as] assignment, and the result. *)
Definition run_in_combat `{Collaborators} (self_concentration self_stacking : bool)
    (self_save_as self_parent : option string) (c : Combatant)
    (effect : InitiativeEffect) (autoctx : AutoCtx)
  : outcome (IEffectResult * AutoCtx) :=
  (* concentration spells *)
  conc_parent ← concentration_spells self_concentration c autoctx;
  (* stacking *)
  '(effect, stack_parent) ← stacking_block self_stacking (effects_of autoctx c) effect;
  (* parenting *)
  explicit_parent ← parenting self_parent autoctx;
  let '(effect, autoctx) :=
    choose_parent stack_parent explicit_parent conc_parent effect autoctx in
  (* add *)
  let '(conc_conflict, autoctx) := call_add_effect c effect autoctx in
  let autoctx := queue autoctx ("**Effect**: " +:+ get_str effect) in
  let autoctx :=
    match conc_conflict with
    | [] => autoctx
    | _ => queue autoctx ("**Concentration**: dropped " +:+
                          String.concat ", " (map e_name conc_conflict))
    end in
  (* save as *)
  let autoctx :=
    match self_save_as with
    | Some v => with_metavars autoctx (<[v := IEffectMetaVar effect]> (metavars autoctx))
    | None => autoctx
    end in
  Returned ({| effect := effect; conc_conflict := conc_conflict |}, autoctx).

Definition no_target_message : string :=
  "Tried to add an effect without a target! Make sure all IEffect effects are inside of a Target effect.".

(** ** [LegacyIEffect.run]

    [super().run(autoctx)], the method of the base class [Effect], is not in
    this file; the model starts at the line after it. *)
Definition LegacyIEffect_run `{Collaborators} (self : LegacyIEffect) (autoctx : AutoCtx)
  : outcome (IEffectResult * AutoCtx) :=
  match target autoctx with
  | None => Raised (TargetException no_target_message)
  | Some tgt =>
      duration ← eval_duration (l_duration self) autoctx;
      let desc := eval_desc (l_desc self) autoctx in
      let duration := args_last_dur autoctx duration in
      match t_combatant tgt with
      | Some c =>
          let '(effect, autoctx) :=
            InitiativeEffect_new autoctx (Some (c_combat c)) (Some (c_id c))
              (l_name self) duration
              (EffectArgs (parse_annostr autoctx (l_effects self)))
              (l_tick_on_end self) (l_concentration self) desc in
          run_in_combat (l_concentration self) (l_stacking self)
            (l_save_as self) (l_parent self) c effect autoctx
      | None =>
          let '(effect, autoctx) :=
            InitiativeEffect_new autoctx None None
              (l_name self) duration
              (EffectArgs (parse_annostr autoctx (l_effects self)))
              (l_tick_on_end self) (l_concentration self) desc in
          let autoctx := queue autoctx ("**Effect**: " +:+ get_str effect) in
          Returned ({| effect := effect; conc_conflict := [] |}, autoctx)
      end
  end.

(** ** [IEffect.run]

    As for the legacy node, the model starts after [super().run(autoctx)]. *)
Definition IEffect_run `{Collaborators} (self : IEffect) (autoctx : AutoCtx)
  : outcome (IEffectResult * AutoCtx) :=
  match target autoctx with
  | None => Raised (TargetException no_target_message)
  | Some tgt =>
      duration ← eval_duration (duration self) autoctx;
      let desc := eval_desc (desc self) autoctx in
      let duration := args_last_dur autoctx duration in
      let effects :=
        match effects self with
        | Some w => resolve_passive w autoctx
        | None => default_passive
        end in
      let attacks := map (fun a => resolve_attack a autoctx) (attacks self) in
      let buttons := map (fun b => resolve_button b autoctx) (buttons self) in
      match t_combatant tgt with
      | Some c =>
          let '(effect, autoctx) :=
            InitiativeEffect_new autoctx (Some (c_combat c)) (Some (c_id c))
              (name self) duration (Interactions effects attacks buttons)
              (end_on_turn_end self) (concentration self) desc in
          run_in_combat (concentration self) (stacking self)
            (save_as self) (parent self) c effect autoctx
      | None =>
          let '(effect, autoctx) :=
            InitiativeEffect_new autoctx None None
              (name self) duration (Interactions effects attacks buttons)
              (end_on_turn_end self) (concentration self) desc in
          let autoctx := queue autoctx ("**Effect**: " +:+ get_str effect) in
          Returned ({| effect := effect; conc_conflict := [] |}, autoctx)
      end
  end.

(** ** A node of either class

    The automation runs a node through its [run] method, whichever class it
    has. *)
Inductive node `{Payloads} : Type :=
| Legacy (self : LegacyIEffect)
| Current (self : IEffect).

Definition run `{Collaborators} (n : node) (autoctx : AutoCtx)
  : outcome (IEffectResult * AutoCtx) :=
  match n with
  | Legacy self => LegacyIEffect_run self autoctx
  | Current self => IEffect_run self autoctx
  end.

(** The attributes the two classes share. *)
Definition node_name `{Payloads} (n : node) : string :=
  match n with Legacy self => l_name self | Current self => name self end.

Definition node_duration `{Payloads} (n : node) : duration_attr :=
  match n with Legacy self => l_duration self | Current self => duration self end.

Definition node_concentration `{Payloads} (n : node) : bool :=
  match n with Legacy self => l_concentration self | Current self => concentration self end.

Definition node_desc `{Payloads} (n : node) : option string :=
  match n with Legacy self => l_desc self | Current self => desc self end.

Definition node_stacking `{Payloads} (n : node) : bool :=
  match n with Legacy self => l_stacking self | Current self => stacking self end.

Definition node_save_as `{Payloads} (n : node) : option string :=
  match n with Legacy self => l_save_as self | Current self => save_as self end.

Definition node_parent `{Payloads} (n : node) : option string :=
  match n with Legacy self => l_parent self | Current self => parent self end.

Definition node_end `{Payloads} (n : node) : bool :=
  match n with Legacy self => l_tick_on_end self | Current self => end_on_turn_end self end.

(** The payload [run] hands to [InitiativeEffect.new]. *)
Definition node_payload `{Collaborators} (n : node) (autoctx : AutoCtx) : payload :=
  match n with
  | Legacy self => EffectArgs (parse_annostr autoctx (l_effects self))
  | Current self =>
      Interactions
        (match effects self with
         | Some w => resolve_passive w autoctx
         | None => default_passive
         end)
        (map (fun a => resolve_attack a autoctx) (attacks self))
        (map (fun b => resolve_button b autoctx) (buttons self))
  end.

(** The effect [run] creates for an owner, once the duration evaluated to
    [d]; the owner is a combatant, or nobody. *)
Definition created `{Collaborators} (n : node) (autoctx : AutoCtx)
    (owner : option Combatant) (d : option Z) : InitiativeEffect :=
  fst (InitiativeEffect_new autoctx (c_combat <$> owner) (c_id <$> owner)
         (node_name n) (args_last_dur autoctx d) (node_payload n autoctx)
         (node_end n) (node_concentration n) (eval_desc (node_desc n) autoctx)).

(** The context [run] works in after the creation of the effect. *)
Definition after_new `{Payloads} (a : AutoCtx) : AutoCtx :=
  with_next_effect_id a (S (next_effect_id a)).

(** The calls of [set_parent] among some calls. *)
Definition is_set_parent `{Payloads} (c : call) : bool :=
  match c with
  | CallSetParent _ _ => true
  | CallAddEffect _ _ _ => false
  end.

Definition is_add_effect `{Payloads} (c : call) : bool :=
  match c with
  | CallSetParent _ _ => false
  | CallAddEffect _ _ _ => true
  end.

(** ** A combat to run the nodes in

    Three combatants of one combat: a cleric that concentrates on Bless and
    bears a Hex, a goblin that is poisoned three times over and an ogre that
    is poisoned once; and a stat block that is in no combat.  The payloads carry nothing, the evaluator knows two expressions,
    and [add_effect] is the one of a combatant that keeps one effect of each
    name and one concentration effect. *)
Module Example.

Definition payloads : Payloads :=
  {| PassiveEffectsWrapper := unit; AttackInteractionWrapper := unit;
     ButtonInteractionWrapper := unit; InitPassiveEffect := unit;
     AttackInteraction := unit; ButtonInteraction := unit |}.

#[local] Existing Instance payloads.

Definition keep_one_per_name (existing : list InitiativeEffect) (e : InitiativeEffect)
  : list InitiativeEffect * list InitiativeEffect :=
  let others := List.filter (fun x => negb (String.eqb (e_name x) (e_name e))) existing in
  let conflict := if e_concentration e then List.filter e_concentration others else [] in
  ((List.filter (fun x => negb (e_concentration e && e_concentration x)) others
      ++ [e])%list,
   conflict).

Definition collaborators : Collaborators :=
  {| parse_intexpression := fun _ s =>
       match s with
       | "3" => Some 3
       | "1+2" => Some 3
       | _ => None
       end;
     parse_annostr := fun _ s => s;
     resolve_passive := fun _ _ => tt;
     resolve_attack := fun _ _ => tt;
     resolve_button := fun _ _ => tt;
     default_passive := tt;
     get_str := e_name;
     add_effect := keep_one_per_name |}.

#[local] Existing Instance collaborators.

Definition cleric : Combatant := {| c_id := 1; c_combat := 7 |}.
Definition goblin : Combatant := {| c_id := 2; c_combat := 7 |}.
Definition ogre : Combatant := {| c_id := 3; c_combat := 7 |}.

Definition on (owner : Combatant) (id : nat) (n : string) (conc : bool) : InitiativeEffect :=
  {| e_id := id; e_combat := Some (c_combat owner); e_combatant := Some (c_id owner);
     e_name := n; e_duration := Some 10; e_remaining := Some 10;
     e_payload := Interactions tt [] []; e_end_on_turn_end := false;
     e_concentration := conc; e_desc := None; e_parent := None |}.

Definition bless : InitiativeEffect := on cleric 10 "Bless" true.
Definition hex : InitiativeEffect := on cleric 11 "Hex" false.
Definition ogre_poison : InitiativeEffect := on ogre 30 "Poison" false.
Definition poison : InitiativeEffect := on goblin 20 "Poison" false.
Definition poison2 : InitiativeEffect := on goblin 21 "Poison x2" false.
Definition poison3 : InitiativeEffect := on goblin 22 "Poison x3" false.

(** The context of a run on [tgt], with the concentration effect, the
    metavariables and the [dur] argument given. *)
Definition ctx (tgt : entity) (conc : option InitiativeEffect)
    (vars : gmap string value) (dur : option Z) : AutoCtx :=
  {| target := Some {| t_target := tgt |};
     conc_effect := conc;
     metavars := vars;
     args_dur := dur;
     queued := [];
     combatants := {[ 1%nat := [bless; hex];
                      2%nat := [poison; poison2; poison3];
                      3%nat := [ogre_poison] ]};
     next_effect_id := 100;
     calls := [] |}.

(** An [IEffect] node with no payload and no description. *)
Definition ieffect (n : string) (d : duration_attr) (conc stack : bool)
    (save parent_var : option string) : node :=
  Current {| name := n; duration := d; effects := None; attacks := []; buttons := [];
             end_on_turn_end := false; concentration := conc; desc := None;
             stacking := stack; save_as := save; parent := parent_var |}.

(** A [LegacyIEffect] node with a description. *)
Definition legacy (n : string) (d : duration_attr) (conc stack : bool)
    (save parent_var : option string) : node :=
  Legacy {| l_name := n; l_duration := d; l_effects := "-ac +1"; l_tick_on_end := true;
            l_concentration := conc; l_desc := Some "Stacks."; l_stacking := stack;
            l_save_as := save; l_parent := parent_var |}.

Definition run (n : node) (autoctx : AutoCtx) : outcome (IEffectResult * AutoCtx) :=
  run n autoctx.

(** [k] copies of a string, for the long descriptions. *)
Fixpoint copies (k : nat) (s : string) : string :=
  match k with
  | O => ""
  | S k' => s +:+ copies k' s
  end.

(** The letter e with an acute accent, U+00E9: one code point, the two
    bytes C3 A9. *)
Definition e_acute : string :=
  String (Ascii.ascii_of_nat 195) (String (Ascii.ascii_of_nat 169) "").

(** A description of [k] accented letters. *)
Definition accented (k : nat) : string := copies k e_acute.

(** A legacy node with the description [d]. *)
Definition described (n : string) (d : string) (stack : bool) : node :=
  Legacy {| l_name := n; l_duration := DurInt 3; l_effects := ""; l_tick_on_end := false;
            l_concentration := false; l_desc := Some d; l_stacking := stack;
            l_save_as := None; l_parent := None |}.

(** An [IEffect] node with a description. *)
Definition ieffect_described (n : string) (d : duration_attr) (de : string)
    (conc stack : bool) : node :=
  Current {| name := n; duration := d; effects := None; attacks := []; buttons := [];
             end_on_turn_end := false; concentration := conc; desc := Some de;
             stacking := stack; save_as := None; parent := None |}.

(** The context of a node that is run outside of a Target node. *)
Definition no_target : AutoCtx :=
  {| target := None; conc_effect := None; metavars := ∅; args_dur := None;
     queued := []; combatants := ∅; next_effect_id := 100; calls := [] |}.

(** The context a run leaves, for the next node to run in. *)
Definition after (n : node) (a : AutoCtx) : AutoCtx :=
  match run n a with
  | Returned (_, a') => a'
  | _ => a
  end.

End Example.

(** The effects of [existing] that have another name than [n]; the measure
    of the renaming loop. *)
Definition without `{Payloads} (existing : list InitiativeEffect) (n : string)
  : list InitiativeEffect :=
  List.filter (fun e => negb (String.eqb (e_name e) n)) existing.

(** * Properties *)

(** ** Names and the renaming loop *)

Section Names.
Context `{P : Payloads}.

Implicit Types (existing : list InitiativeEffect) (e : InitiativeEffect).

Lemma get_effect_Some existing n e :
  get_effect existing n = Some e -> In e existing /\ e_name e = n.
Proof.
  unfold get_effect. intros Hfind.
  apply find_some in Hfind as [Hin Heq].
  split; [exact Hin | now apply String.eqb_eq].
Qed.

Lemma get_effect_None existing n :
  get_effect existing n = None <-> ~ In n (map e_name existing).
Proof.
  unfold get_effect. split.
  - intros Hfind Hin. apply in_map_iff in Hin as (e & Hname & Hin).
    pose proof (find_none _ _ Hfind e Hin) as Hneq. simpl in Hneq.
    apply String.eqb_neq in Hneq. congruence.
  - intros Hnot. destruct (find _ existing) as [e|] eqn:Hfind; [|reflexivity].
    apply find_some in Hfind as [Hin Heq]. apply String.eqb_eq in Heq.
    exfalso. apply Hnot. apply in_map_iff. eauto.
Qed.

Lemma get_effect_is_Some existing n :
  is_Some (get_effect existing n) <-> In n (map e_name existing).
Proof.
  split.
  - intros [e He]. apply get_effect_Some in He as [Hin Hname].
    apply in_map_iff. eauto.
  - intros Hin. destruct (get_effect existing n) eqn:Hget; [eauto|].
    apply get_effect_None in Hget. contradiction.
Qed.

(** Two counts never give one name. *)
Lemma stack_name_inj n j k : stack_name n j = stack_name n k -> j = k.
Proof.
  unfold stack_name. intros Heq.
  apply (String.app_inj n) in Heq. apply (String.app_inj " x") in Heq.
  now apply pretty_nat_inj in Heq.
Qed.

Lemma length_append (s t : string) :
  String.length (s +:+ t) = (String.length s + String.length t)%nat.
Proof. induction s as [|a s IH]; simpl; [reflexivity | now rewrite IH]. Qed.

(** No name is its own stack name. *)
Lemma stack_name_neq n k : stack_name n k <> n.
Proof.
  unfold stack_name. intros Heq.
  apply (f_equal String.length) in Heq.
  rewrite !length_append in Heq. simpl in Heq. lia.
Qed.

(** What the loop returns: the first name from [count] on that no effect
    of the target has. *)
Lemma rename_loop_Some fuel existing n count nm :
  rename_loop fuel existing n count = Some nm ->
  exists k, (count <= k)%nat /\ nm = stack_name n k /\
    get_effect existing nm = None /\
    forall j, (count <= j < k)%nat -> is_Some (get_effect existing (stack_name n j)).
Proof.
  revert count. induction fuel as [|fuel IH]; intros count Hloop; [discriminate|].
  simpl in Hloop.
  destruct (get_effect existing (stack_name n count)) as [e|] eqn:Hget.
  - apply IH in Hloop as (k & Hle & Hnm & Hfree & Hused).
    exists k. repeat split; [lia | assumption | assumption |].
    intros j Hj. destruct (decide (j = count)) as [->|Hne].
    + rewrite Hget. eauto.
    + apply Hused. lia.
  - inversion Hloop; subst nm. exists count.
    repeat split; [lia | assumption |]. intros j Hj. lia.
Qed.

(** The loop looks at the target's effects only through the names from
    [count] on. *)
Lemma rename_loop_ext fuel existing existing' n count :
  (forall j, (count <= j)%nat ->
     get_effect existing (stack_name n j) = None <->
     get_effect existing' (stack_name n j) = None) ->
  rename_loop fuel existing n count = rename_loop fuel existing' n count.
Proof.
  revert count. induction fuel as [|fuel IH]; intros count Hsame; [reflexivity|].
  simpl. pose proof (Hsame count (Nat.le_refl _)) as Hcount.
  destruct (get_effect existing (stack_name n count)) eqn:H1,
           (get_effect existing' (stack_name n count)) eqn:H2.
  - apply IH. intros j Hj. apply Hsame. lia.
  - destruct Hcount as [_ Hc]. specialize (Hc eq_refl). discriminate.
  - destruct Hcount as [Hc _]. specialize (Hc eq_refl). discriminate.
  - reflexivity.
Qed.

Lemma without_shorter existing n e :
  In e existing -> e_name e = n ->
  (length (without existing n) < length existing)%nat.
Proof.
  unfold without. induction existing as [|x xs IH]; intros Hin Hname; [destruct Hin|].
  simpl. destruct Hin as [->|Hin].
  - rewrite Hname, String.eqb_refl. simpl.
    pose proof (List.filter_length_le (fun e => negb (String.eqb (e_name e) n)) xs).
    lia.
  - specialize (IH Hin Hname).
    destruct (negb (String.eqb (e_name x) n)); simpl; lia.
Qed.

Lemma get_effect_without existing n m :
  m <> n -> get_effect (without existing n) m = None <-> get_effect existing m = None.
Proof.
  intros Hne. rewrite !get_effect_None. unfold without.
  split; intros Hnot Hin; apply Hnot; apply in_map_iff in Hin as (e & Hname & Hin);
    apply in_map_iff; exists e; (split; [assumption|]).
  - apply filter_In. split; [assumption|].
    apply negb_true_iff, String.eqb_neq. congruence.
  - now apply filter_In in Hin as [Hin _].
Qed.

(** The loop ends: with more fuel than the target has effects, it finds a
    name.  Every turn of the loop meets an effect of the target that no
    later turn can meet. *)
Lemma rename_loop_enough fuel existing n count :
  (length existing < fuel)%nat -> is_Some (rename_loop fuel existing n count).
Proof.
  revert existing count.
  induction fuel as [|fuel IH]; intros existing count Hlen; [lia|].
  simpl. destruct (get_effect existing (stack_name n count)) as [e|] eqn:Hget; [|eauto].
  apply get_effect_Some in Hget as [Hin Hname].
  rewrite (rename_loop_ext fuel existing (without existing (stack_name n count))).
  - apply IH. pose proof (without_shorter _ _ _ Hin Hname). lia.
  - intros j Hj. symmetry. apply get_effect_without.
    intros Heq. apply stack_name_inj in Heq. lia.
Qed.

End Names.

(** ** The blocks *)

Section Blocks.
Context `{C : Collaborators}.

Implicit Types (e : InitiativeEffect) (a : AutoCtx) (c : Combatant) (n : node).

(** The stacking block never raises and never runs out of fuel.  It leaves
    the effect alone unless the node stacks and the target has an effect of
    that name; then it returns that effect as the stack parent, and the
    effect neutralized and renamed by the loop. *)
Lemma stacking_block_Returned (stk : bool) existing e :
  exists e' sp,
    stacking_block stk existing e = Returned (e', sp) /\
    sp = (if stk then get_effect existing (e_name e) else None) /\
    (sp = None -> e' = e) /\
    (is_Some sp ->
       exists nm,
         rename_loop (S (length existing)) existing (e_name e) 2 = Some nm /\
         e' = set_name
                (set_concentration
                   (set_duration_remaining (set_desc e None) (Some (-1))) false) nm).
Proof.
  unfold stacking_block. destruct stk.
  - destruct (get_effect existing (e_name e)) as [sp|] eqn:Hget.
    + simpl.
      destruct (rename_loop_enough (S (length existing)) existing (e_name e) 2)
        as [nm Hnm]; [lia|].
      simpl in Hnm. simpl. rewrite Hnm.
      eexists _, _. split; [reflexivity|].
      split; [reflexivity|]. split; [discriminate|].
      intros _. exists nm. split; reflexivity.
    + eexists _, _. split; [reflexivity|].
      split; [reflexivity|]. split; [reflexivity|].
      intros [x Hx]. discriminate.
  - eexists _, _. split; [reflexivity|].
    split; [reflexivity|]. split; [reflexivity|].
    intros [x Hx]. discriminate.
Qed.

(** The name after the stacking block of a node that stacks is the name of
    no effect of the target. *)
Lemma stacking_block_fresh existing e e' sp :
  stacking_block true existing e = Returned (e', sp) ->
  get_effect existing (e_name e') = None.
Proof.
  intros Hblock.
  destruct (stacking_block_Returned true existing e)
    as (e1 & sp1 & Heq & Hsp & Hnone & Hsome).
  rewrite Hblock in Heq. injection Heq as -> ->.
  destruct sp1 as [s|].
  - destruct Hsome as (nm & Hloop & ->); [eauto|].
    apply rename_loop_Some in Hloop as (k & _ & _ & Hfree & _). exact Hfree.
  - rewrite (Hnone eq_refl). symmetry. exact Hsp.
Qed.

Lemma effects_of_with_calls a cs c : effects_of (with_calls a cs) c = effects_of a c.
Proof. reflexivity. Qed.

(** What [run] does in a combat once the concentration block and the
    parenting block have returned: it returns, after one call of
    [add_effect] on the effects the target had, and at most one call of
    [set_parent] before it. *)
Lemma run_in_combat_Returned (conc stk : bool) (save par : option string)
    c e a cp ep :
  concentration_spells conc c a = Returned cp ->
  parenting par a = Returned ep ->
  exists e1 sp a',
    stacking_block stk (effects_of a c) e = Returned (e1, sp) /\
    let chosen := py_or (py_or sp ep) cp in
    let e2 := match chosen with Some p => set_parent e1 p | None => e1 end in
    run_in_combat conc stk save par c e a =
      Returned ({| effect := e2;
                   conc_conflict := snd (add_effect (effects_of a c) e2) |}, a') /\
    calls a' =
      CallAddEffect (c_id c) (effects_of a c) e2 ::
        match chosen with Some p => [CallSetParent e1 p] | None => [] end ++ calls a /\
    metavars a' =
      match save with
      | Some v => <[v := IEffectMetaVar e2]> (metavars a)
      | None => metavars a
      end /\
    combatants a' =
      <[c_id c := fst (add_effect (effects_of a c) e2)]> (combatants a).
Proof.
  intros Hconc Hpar.
  destruct (stacking_block_Returned stk (effects_of a c) e)
    as (e1 & sp & Hblock & _).
  exists e1, sp. unfold run_in_combat.
  rewrite Hconc, Hblock, Hpar. simpl.
  unfold choose_parent, call_add_effect.
  destruct (py_or (py_or sp ep) cp) as [p|];
    rewrite ?effects_of_with_calls;
    (match goal with
     | |- context [add_effect ?l ?x] => destruct (add_effect l x) as [effs conflict]
     end);
    simpl; eexists; (split; [reflexivity|]); (split; [reflexivity|]);
    destruct conflict, save; simpl; auto.
Qed.

(** [run] in a combat returns only when those two blocks have. *)
Lemma run_in_combat_inv (conc stk : bool) (save par : option string)
    c e a res a' :
  run_in_combat conc stk save par c e a = Returned (res, a') ->
  exists cp ep,
    concentration_spells conc c a = Returned cp /\
    parenting par a = Returned ep.
Proof.
  unfold run_in_combat. intros Hrun.
  destruct (concentration_spells conc c a) as [cp|err|]; simpl in Hrun;
    try discriminate.
  destruct (stacking_block stk (effects_of a c) e) as [[e1 sp]|err|];
    simpl in Hrun; try discriminate.
  destruct (parenting par a) as [ep|err|]; simpl in Hrun; try discriminate.
  eauto.
Qed.

(** An error of the concentration block is the error of [run]. *)
Lemma run_in_combat_conc_Raised (conc stk : bool) (save par : option string)
    c e a err :
  concentration_spells conc c a = Raised err ->
  run_in_combat conc stk save par c e a = Raised err.
Proof. intros Hconc. unfold run_in_combat. now rewrite Hconc. Qed.

(** An error of the parenting block is the error of [run], when the
    concentration block has returned. *)
Lemma run_in_combat_parenting_Raised (conc stk : bool) (save par : option string)
    c e a cp err :
  concentration_spells conc c a = Returned cp ->
  parenting par a = Raised err ->
  run_in_combat conc stk save par c e a = Raised err.
Proof.
  intros Hconc Hpar. unfold run_in_combat. rewrite Hconc. simpl.
  destruct (stacking_block_Returned stk (effects_of a c) e)
    as (e1 & sp & -> & _).
  simpl. now rewrite Hpar.
Qed.

(** [run] on a target that is in a combat, once the duration is there. *)
Lemma run_in_combat_eq n a tgt c d :
  target a = Some tgt -> t_combatant tgt = Some c ->
  eval_duration (node_duration n) a = Returned d ->
  run n a =
    run_in_combat (node_concentration n) (node_stacking n) (node_save_as n)
      (node_parent n) c (created n a (Some c) d) (after_new a).
Proof.
  intros Htgt Hc Hdur.
  destruct n as [self|self]; simpl in *;
    [unfold LegacyIEffect_run | unfold IEffect_run];
    rewrite Htgt, Hdur; simpl; rewrite Hc; reflexivity.
Qed.

(** [run] on a target that is in no combat, once the duration is there. *)
Lemma run_detached_eq n a tgt d :
  target a = Some tgt -> t_combatant tgt = None ->
  eval_duration (node_duration n) a = Returned d ->
  run n a =
    Returned ({| effect := created n a None d; conc_conflict := [] |},
              queue (after_new a) ("**Effect**: " +:+ get_str (created n a None d))).
Proof.
  intros Htgt Hc Hdur.
  destruct n as [self|self]; simpl in *;
    [unfold LegacyIEffect_run | unfold IEffect_run];
    rewrite Htgt, Hdur; simpl; rewrite Hc; reflexivity.
Qed.

(** An error of the duration is the error of [run]. *)
Lemma run_duration_Raised n a tgt err :
  target a = Some tgt ->
  eval_duration (node_duration n) a = Raised err ->
  run n a = Raised err.
Proof.
  intros Htgt Hdur.
  destruct n as [self|self]; simpl in *;
    [unfold LegacyIEffect_run | unfold IEffect_run];
    rewrite Htgt, Hdur; reflexivity.
Qed.

(** The duration block returns or raises. *)
Lemma eval_duration_cases (d : duration_attr) a :
  (exists v, eval_duration d a = Returned v) \/
  (exists expr, d = DurStr expr /\ parse_intexpression a expr = None /\
     eval_duration d a =
       Raised (AutomationException (expr +:+ " is not an integer (in effect duration)"))).
Proof.
  destruct d as [z|expr|]; simpl; eauto.
  destruct (parse_intexpression a expr) eqn:Hparse; eauto 6.
Qed.

(** The loop of [run] always ends within its fuel. *)
Lemma run_never_out_of_fuel n a : run n a <> OutOfFuel.
Proof.
  destruct (target a) as [tgt|] eqn:Htgt.
  - destruct (eval_duration_cases (node_duration n) a)
      as [[d Hd]|(expr & _ & _ & Hd)].
    + destruct (t_combatant tgt) as [c|] eqn:Hc.
      * rewrite (run_in_combat_eq n a tgt c d Htgt Hc Hd).
        set (a1 := after_new a).
        destruct (concentration_spells (node_concentration n) c a1)
          as [cp|err|] eqn:Hconc.
        -- destruct (parenting (node_parent n) a1) as [ep|err|] eqn:Hpar.
           ++ destruct (run_in_combat_Returned (node_concentration n)
                (node_stacking n) (node_save_as n) (node_parent n) c
                (created n a (Some c) d) a1 cp ep Hconc Hpar)
                as (e1 & sp & a' & _ & Hrun & _).
              rewrite Hrun. discriminate.
           ++ erewrite run_in_combat_parenting_Raised by eassumption. discriminate.
           ++ unfold parenting in Hpar.
              destruct (node_parent n) as [p|]; [|discriminate].
              destruct (metavars a1 !! p) as [[| | | | |]|]; discriminate.
        -- erewrite run_in_combat_conc_Raised by eassumption. discriminate.
        -- unfold concentration_spells in Hconc.
           destruct (conc_effect a1) as [ce|]; [|discriminate].
           destruct (combatant_is ce c && node_concentration n); discriminate.
      * rewrite (run_detached_eq n a tgt d Htgt Hc Hd). discriminate.
    + rewrite (run_duration_Raised n a tgt _ Htgt Hd). discriminate.
  - destruct n as [self|self]; simpl;
      [unfold LegacyIEffect_run | unfold IEffect_run]; rewrite Htgt; discriminate.
Qed.

End Blocks.

(** ** [run] as a whole *)

Section Run.
Context `{C : Collaborators}.

Implicit Types (e : InitiativeEffect) (a : AutoCtx) (c : Combatant) (n : node).

(** The stacking block keeps the identity, the owner and the parent of the
    effect. *)
Lemma stacking_block_keeps (stk : bool) existing e e' sp :
  stacking_block stk existing e = Returned (e', sp) ->
  e_id e' = e_id e /\ e_combatant e' = e_combatant e /\ e_parent e' = e_parent e.
Proof.
  intros Hblock.
  destruct (stacking_block_Returned stk existing e)
    as (e1 & sp1 & Heq & _ & Hnone & Hsome).
  rewrite Hblock in Heq. injection Heq as -> ->.
  destruct sp1 as [s|].
  - destruct Hsome as (nm & _ & ->); [eauto|]. auto.
  - rewrite (Hnone eq_refl). auto.
Qed.

(** [run] on a target in a combat, when the duration, the concentration
    block and the parenting block return. *)
Lemma run_Returned n a tgt c d cp ep :
  target a = Some tgt -> t_combatant tgt = Some c ->
  eval_duration (node_duration n) a = Returned d ->
  concentration_spells (node_concentration n) c a = Returned cp ->
  parenting (node_parent n) a = Returned ep ->
  exists e1 sp a',
    stacking_block (node_stacking n) (effects_of a c) (created n a (Some c) d)
      = Returned (e1, sp) /\
    let chosen := py_or (py_or sp ep) cp in
    let e2 := match chosen with Some p => set_parent e1 p | None => e1 end in
    run n a =
      Returned ({| effect := e2;
                   conc_conflict := snd (add_effect (effects_of a c) e2) |}, a') /\
    calls a' =
      CallAddEffect (c_id c) (effects_of a c) e2 ::
        match chosen with Some p => [CallSetParent e1 p] | None => [] end ++ calls a /\
    metavars a' =
      match node_save_as n with
      | Some v => <[v := IEffectMetaVar e2]> (metavars a)
      | None => metavars a
      end /\
    combatants a' =
      <[c_id c := fst (add_effect (effects_of a c) e2)]> (combatants a).
Proof.
  intros Htgt Hc Hd Hconc Hpar.
  rewrite (run_in_combat_eq n a tgt c d Htgt Hc Hd).
  exact (run_in_combat_Returned (node_concentration n) (node_stacking n)
           (node_save_as n) (node_parent n) c (created n a (Some c) d)
           (after_new a) cp ep Hconc Hpar).
Qed.

(** [run] on a target in a combat returns only when the three have. *)
Lemma run_Returned_inv n a tgt c res a' :
  target a = Some tgt -> t_combatant tgt = Some c ->
  run n a = Returned (res, a') ->
  exists d cp ep,
    eval_duration (node_duration n) a = Returned d /\
    concentration_spells (node_concentration n) c a = Returned cp /\
    parenting (node_parent n) a = Returned ep.
Proof.
  intros Htgt Hc Hrun.
  destruct (eval_duration_cases (node_duration n) a)
    as [[d Hd]|(expr & _ & _ & Hd)].
  - rewrite (run_in_combat_eq n a tgt c d Htgt Hc Hd) in Hrun.
    apply run_in_combat_inv in Hrun as (cp & ep & Hconc & Hpar).
    exists d, cp, ep. auto.
  - rewrite (run_duration_Raised n a tgt _ Htgt Hd) in Hrun. discriminate.
Qed.

(** The parent of the effect [run] returns is the first of the three
    candidates that is there. *)
Lemma run_chosen_parent n a tgt c d cp ep :
  target a = Some tgt -> t_combatant tgt = Some c ->
  eval_duration (node_duration n) a = Returned d ->
  concentration_spells (node_concentration n) c a = Returned cp ->
  parenting (node_parent n) a = Returned ep ->
  exists res a',
    run n a = Returned (res, a') /\
    e_parent (effect res) =
      e_id <$> py_or (py_or (if node_stacking n
                             then get_effect (effects_of a c) (node_name n)
                             else None) ep) cp.
Proof.
  intros Htgt Hc Hd Hconc Hpar.
  destruct (run_Returned n a tgt c d cp ep Htgt Hc Hd Hconc Hpar)
    as (e1 & sp & a' & Hblock & Hrun & _).
  destruct (stacking_block_Returned (node_stacking n) (effects_of a c)
              (created n a (Some c) d)) as (e1' & sp1 & Heq & Hsp & _).
  rewrite Hblock in Heq. injection Heq as <- <-.
  apply stacking_block_keeps in Hblock as (_ & _ & Hparent).
  change (e_parent e1 = None) in Hparent.
  change (sp = if node_stacking n
               then get_effect (effects_of a c) (node_name n) else None) in Hsp.
  cbv zeta in Hrun. eexists _, a'. split; [exact Hrun|].
  rewrite <- Hsp. simpl.
  destruct (py_or (py_or sp ep) cp); simpl; [reflexivity | exact Hparent].
Qed.

End Run.

(** The two blocks that can raise, case by case. *)
Lemma concentration_spells_cases `{P : Payloads} (conc : bool) (c : Combatant)
    (a : AutoCtx) :
  (exists cp, concentration_spells conc c a = Returned cp /\ cp = conc_effect a) \/
  (exists ce, conc_effect a = Some ce /\ combatant_is ce c = true /\ conc = true /\
     concentration_spells conc c a =
       Raised (InvalidArgument
         "Concentration spells cannot add concentration effects to the caster.")).
Proof.
  unfold concentration_spells. destruct (conc_effect a) as [ce|]; [|eauto].
  destruct (combatant_is ce c) eqn:Hself, conc; simpl; eauto 10.
Qed.

Lemma parenting_cases `{P : Payloads} (par : option string) (a : AutoCtx) :
  (exists ep, parenting par a = Returned ep) \/
  (exists p v, par = Some p /\ metavars a !! p = Some v /\ v <> VNone /\
     (forall e, v <> IEffectMetaVar e) /\
     parenting par a =
       Raised (InvalidArgument
         ("Could not set IEffect parent: The variable `" +:+ p +:+
          "` is not an IEffectMetaVar (got `" +:+ type_name v +:+ "`)."))).
Proof.
  unfold parenting. destruct par as [p|]; [|eauto].
  destruct (metavars a !! p) as [v|] eqn:Hv; [|eauto].
  destruct v; eauto; right; eexists _, _;
    (split; [reflexivity|]); (split; [exact Hv|]);
    (split; [discriminate|]); (split; [discriminate|]); reflexivity.
Qed.

(** * The claims *)

(** C1, parent priority.  Take a run that reaches the choice of the parent:
    the target is a combatant, the duration evaluates, the concentration
    block returns the candidate [cp] and the parenting block the candidate
    [ep]; the stack parent [sp] is the effect of the node's name on the
    target when the node stacks.  Then [run] returns, and the effect it adds
    has for parent: the stack parent when there is one; else the explicit
    parent when there is one; else the concentration parent when there is
    one; else none.  Between the entry and the call of [add_effect] there is
    at most one call, a [set_parent], and none when the three are [None]. *)
Theorem C1_parent_priority `{C : Collaborators} (n : node) (a : AutoCtx)
    (tgt : AutomationTarget) (c : Combatant) (d : option Z)
    (cp ep : option InitiativeEffect) :
  target a = Some tgt ->
  t_combatant tgt = Some c ->
  eval_duration (node_duration n) a = Returned d ->
  concentration_spells (node_concentration n) c a = Returned cp ->
  parenting (node_parent n) a = Returned ep ->
  let sp := if node_stacking n
            then get_effect (effects_of a c) (node_name n) else None in
  exists res a' new_calls,
    run n a = Returned (res, a') /\
    calls a' =
      CallAddEffect (c_id c) (effects_of a c) (effect res) :: new_calls ++ calls a /\
    (length new_calls <= 1)%nat /\
    Forall (fun x => is_set_parent x = true) new_calls /\
    (forall s, sp = Some s -> e_parent (effect res) = Some (e_id s)) /\
    (forall x, sp = None -> ep = Some x -> e_parent (effect res) = Some (e_id x)) /\
    (forall x, sp = None -> ep = None -> cp = Some x ->
       e_parent (effect res) = Some (e_id x)) /\
    (sp = None -> ep = None -> cp = None ->
       e_parent (effect res) = None /\ new_calls = []).
Proof.
  intros Htgt Hc Hd Hconc Hpar sp.
  destruct (run_Returned n a tgt c d cp ep Htgt Hc Hd Hconc Hpar)
    as (e1 & sp' & a' & Hblock & Hrun & Hcalls & _).
  destruct (stacking_block_Returned (node_stacking n) (effects_of a c)
              (created n a (Some c) d)) as (e1' & sp1 & Heq & Hsp & _).
  rewrite Hblock in Heq. injection Heq as <- <-.
  change (sp' = sp) in Hsp. subst sp'.
  apply stacking_block_keeps in Hblock as (_ & _ & Hparent).
  change (e_parent e1 = None) in Hparent.
  cbv zeta in Hrun, Hcalls.
  eexists _, a', _. split; [exact Hrun|]. split; [exact Hcalls|].
  destruct sp as [s|], ep as [x|], cp as [y|]; simpl;
    repeat split; auto; try discriminate;
    try (intros ? [= <-]; reflexivity);
    try (intros ? ? [= <-]; reflexivity);
    try (intros ? ? ? [= <-]; reflexivity);
    repeat constructor.
Qed.

(** The goblin is poisoned, the variable [src] holds the Hex effect and the
    cleric concentrates on Bless: the three candidates are there, and the new
    Poison gets the old Poison for parent. *)
Lemma C1_parent_priority_witness :
  let n := Example.ieffect "Poison" (DurInt 3) false true None (Some "src") in
  let a := Example.ctx (InCombat Example.goblin) (Some Example.bless)
             {[ "src" := IEffectMetaVar Example.hex ]} None in
  get_effect (effects_of a Example.goblin) "Poison" = Some Example.poison /\
  parenting (Some "src") a = Returned (Some Example.hex) /\
  concentration_spells false Example.goblin a = Returned (Some Example.bless) /\
  exists res a',
    Example.run n a = Returned (res, a') /\
    e_parent (effect res) = Some (e_id Example.poison).
Proof.
  intros n a. split; [reflexivity|]. split; [reflexivity|]. split; [reflexivity|].
  destruct (C1_parent_priority (C := Example.collaborators) n a
              {| t_target := InCombat Example.goblin |} Example.goblin (Some 3)
              (Some Example.bless) (Some Example.hex)
              eq_refl eq_refl eq_refl eq_refl eq_refl)
    as (res & a' & new_calls & Hrun & _ & _ & _ & Hstack & _).
  exists res, a'. split; [exact Hrun|]. apply Hstack. reflexivity.
Defined.

(** C2, the claim fails, in two ways.  The cleric concentrates on Bless and
    casts a second concentration effect.  On the cleric, when the duration
    of the node is an expression that does not evaluate, [run] raises
    [AutomationException] and not [InvalidArgument]: the duration comes
    before the guard.  On the goblin, when the parent variable of the node
    holds an [int], [run] does not return: the parenting block raises. *)
Lemma C2_counterexample :
  let n := Example.ieffect "Shield of Faith" (DurStr "oops") true false None None in
  let self := Example.ctx (InCombat Example.cleric) (Some Example.bless) ∅ None in
  let m := Example.ieffect "Shield of Faith" (DurInt 10) true false None (Some "src") in
  let other := Example.ctx (InCombat Example.goblin) (Some Example.bless)
                 {[ "src" := VInt 5 ]} None in
  conc_effect self = Some Example.bless /\
  node_concentration n = true /\
  combatant_is Example.bless Example.cleric = true /\
  Example.run n self =
    Raised (AutomationException "oops is not an integer (in effect duration)") /\
  conc_effect other = Some Example.bless /\
  node_concentration m = true /\
  combatant_is Example.bless Example.goblin = false /\
  Example.run m other =
    Raised (InvalidArgument
      "Could not set IEffect parent: The variable `src` is not an IEffectMetaVar (got `int`).").
Proof. repeat split; reflexivity. Qed.

(** C2, amended.  The spell has a concentration effect [ce] (the caster is
    its combatant), the node asks for concentration and the run has a
    target.  The duration comes first: when it does not evaluate, [run]
    raises its error.  When it does:
    - on a target that is the caster, [run] raises [InvalidArgument];
    - on a target that is another combatant, the concentration block returns
      [ce] as the concentration parent; then [run] raises the
      [InvalidArgument] of the parenting block when that block raises, and
      otherwise returns: the parent of the new effect is the stack parent if
      there is one, else the explicit parent if there is one, else [ce];
    - on a target in no combat, [run] returns an effect without parent:
      there the concentration effect is not looked at. *)
Theorem C2_guard_after_duration `{C : Collaborators} (n : node) (a : AutoCtx)
    (tgt : AutomationTarget) (ce : InitiativeEffect) :
  target a = Some tgt ->
  conc_effect a = Some ce ->
  node_concentration n = true ->
  match eval_duration (node_duration n) a with
  | Raised err =>
      run n a = Raised err /\
      exists expr, node_duration n = DurStr expr /\
        err = AutomationException (expr +:+ " is not an integer (in effect duration)")
  | OutOfFuel => False
  | Returned d =>
      match t_combatant tgt with
      | None =>
          exists res a', run n a = Returned (res, a') /\ e_parent (effect res) = None
      | Some c =>
          if combatant_is ce c
          then run n a =
                 Raised (InvalidArgument
                   "Concentration spells cannot add concentration effects to the caster.")
          else concentration_spells (node_concentration n) c a = Returned (Some ce) /\
               match parenting (node_parent n) a with
               | Returned ep =>
                   let sp := if node_stacking n
                             then get_effect (effects_of a c) (node_name n)
                             else None in
                   exists res a',
                     run n a = Returned (res, a') /\
                     e_parent (effect res) = Some (e_id (default (default ce ep) sp))
               | Raised err =>
                   run n a = Raised err /\ exists msg, err = InvalidArgument msg
               | OutOfFuel => False
               end
      end
  end.
Proof.
  intros Htgt Hce Hconc.
  destruct (eval_duration_cases (node_duration n) a)
    as [[d Hd]|(expr & Hexpr & _ & Hd)]; rewrite Hd.
  2:{ split; [exact (run_duration_Raised n a tgt _ Htgt Hd) | eauto]. }
  destruct (t_combatant tgt) as [c|] eqn:Hc.
  2:{ rewrite (run_detached_eq n a tgt d Htgt Hc Hd). eexists _, _.
      split; reflexivity. }
  assert (Hblock : concentration_spells (node_concentration n) c a =
                   if combatant_is ce c
                   then Raised (InvalidArgument
                     "Concentration spells cannot add concentration effects to the caster.")
                   else Returned (Some ce)).
  { unfold concentration_spells. rewrite Hce, Hconc.
    now destruct (combatant_is ce c). }
  destruct (combatant_is ce c).
  - rewrite (run_in_combat_eq n a tgt c d Htgt Hc Hd).
    now apply run_in_combat_conc_Raised.
  - split; [exact Hblock|].
    destruct (parenting_cases (node_parent n) a)
      as [(ep & Hpar)|(p & v & _ & _ & _ & _ & Hpar)]; rewrite Hpar.
    + intros sp.
      destruct (run_chosen_parent n a tgt c d (Some ce) ep Htgt Hc Hd Hblock Hpar)
        as (res & a' & Hrun & Hparent).
      exists res, a'. split; [exact Hrun|]. rewrite Hparent.
      fold sp. now destruct sp, ep.
    + split; [|eauto].
      rewrite (run_in_combat_eq n a tgt c d Htgt Hc Hd).
      exact (run_in_combat_parenting_Raised _ _ _ _ c _ (after_new a) (Some ce) _
               Hblock Hpar).
Qed.

(** The cleric concentrates on Bless and casts a second concentration
    effect: on the cleric, [run] raises; on the goblin, it returns and Bless
    is the parent; on the goblin with an [int] under the parent variable, it
    raises. *)
Lemma C2_guard_after_duration_witness :
  let n := Example.ieffect "Shield of Faith" (DurInt 10) true false None None in
  let m := Example.ieffect "Shield of Faith" (DurInt 10) true false None (Some "src") in
  let self := Example.ctx (InCombat Example.cleric) (Some Example.bless) ∅ None in
  let other := Example.ctx (InCombat Example.goblin) (Some Example.bless) ∅ None in
  let bad := Example.ctx (InCombat Example.goblin) (Some Example.bless)
               {[ "src" := VInt 5 ]} None in
  Example.run n self =
    Raised (InvalidArgument
      "Concentration spells cannot add concentration effects to the caster.") /\
  (exists res a',
     Example.run n other = Returned (res, a') /\
     e_parent (effect res) = Some (e_id Example.bless)) /\
  exists msg, Example.run m bad = Raised (InvalidArgument msg).
Proof.
  intros n m self other bad. split; [|split].
  - exact (C2_guard_after_duration (C := Example.collaborators) n self
             {| t_target := InCombat Example.cleric |} Example.bless
             eq_refl eq_refl eq_refl).
  - exact (proj2 (C2_guard_after_duration (C := Example.collaborators) n other
                    {| t_target := InCombat Example.goblin |} Example.bless
                    eq_refl eq_refl eq_refl)).
  - destruct (C2_guard_after_duration (C := Example.collaborators) m bad
                {| t_target := InCombat Example.goblin |} Example.bless
                eq_refl eq_refl eq_refl) as (_ & Hrun & msg & Hmsg).
    exists msg. rewrite <- Hmsg. exact Hrun.
Defined.

(** The first free stack name is one name: two counts that are both free
    with every smaller count taken are the same count. *)
Lemma first_free_unique `{P : Payloads} (existing : list InitiativeEffect)
    (n : string) (k k' : nat) :
  get_effect existing (stack_name n k) = None ->
  (forall j, (2 <= j < k)%nat -> is_Some (get_effect existing (stack_name n j))) ->
  (2 <= k')%nat ->
  get_effect existing (stack_name n k') = None ->
  (forall j, (2 <= j < k')%nat -> is_Some (get_effect existing (stack_name n j))) ->
  (2 <= k)%nat ->
  k = k'.
Proof.
  intros Hfree Hused Hk' Hfree' Hused' Hk.
  destruct (lt_eq_lt_dec k k') as [[Hlt|Heq]|Hgt]; [|exact Heq|].
  - destruct (Hused' k) as [x Hx]; [lia|]. congruence.
  - destruct (Hused k') as [x Hx]; [lia|]. congruence.
Qed.

(** C3, stacking disambiguation.  A node that stacks meets an effect of its
    name [N] on the target (the run gets there: the duration evaluates, the
    concentration block and the parenting block return).  Then [run] returns
    an effect named [N xk], where [k] is the first count from 2 on whose name
    no effect of the target has: every count from 2 to [k-1] is taken.  When
    the names on the target are [N], [N x2] and [N x3] the new name is
    [N x4]; when [N] is the only one it is [N x2]. *)
Theorem C3_stacking_disambiguation `{C : Collaborators} (n : node) (a : AutoCtx)
    (tgt : AutomationTarget) (c : Combatant) (d : option Z)
    (cp ep : option InitiativeEffect) (sp : InitiativeEffect) :
  target a = Some tgt ->
  t_combatant tgt = Some c ->
  eval_duration (node_duration n) a = Returned d ->
  concentration_spells (node_concentration n) c a = Returned cp ->
  parenting (node_parent n) a = Returned ep ->
  node_stacking n = true ->
  get_effect (effects_of a c) (node_name n) = Some sp ->
  exists res a' k,
    run n a = Returned (res, a') /\
    (2 <= k)%nat /\
    e_name (effect res) = stack_name (node_name n) k /\
    get_effect (effects_of a c) (stack_name (node_name n) k) = None /\
    (forall j, (2 <= j < k)%nat ->
       is_Some (get_effect (effects_of a c) (stack_name (node_name n) j))) /\
    ((forall nm, In nm (map e_name (effects_of a c)) <->
        nm = node_name n \/ nm = node_name n +:+ " x2" \/ nm = node_name n +:+ " x3") ->
     e_name (effect res) = node_name n +:+ " x4") /\
    ((forall nm, In nm (map e_name (effects_of a c)) <-> nm = node_name n) ->
     e_name (effect res) = node_name n +:+ " x2").
Proof.
  intros Htgt Hc Hd Hconc Hpar Hstk Hget.
  destruct (run_Returned n a tgt c d cp ep Htgt Hc Hd Hconc Hpar)
    as (e1 & sp' & a' & Hblock & Hrun & _).
  destruct (stacking_block_Returned (node_stacking n) (effects_of a c)
              (created n a (Some c) d)) as (e1' & sp1 & Heq & Hsp & _ & Hsome).
  rewrite Hblock in Heq. injection Heq as <- <-.
  change (sp' = if node_stacking n
                then get_effect (effects_of a c) (node_name n) else None) in Hsp.
  rewrite Hstk, Hget in Hsp. subst sp'.
  destruct Hsome as (nm & Hloop & He1); [eauto|].
  change (rename_loop (S (length (effects_of a c))) (effects_of a c) (node_name n) 2
          = Some nm) in Hloop.
  apply rename_loop_Some in Hloop as (k & Hk & -> & Hfree & Hused).
  cbv zeta in Hrun. simpl in Hrun.
  assert (Hname : e_name (set_parent e1 sp) = stack_name (node_name n) k)
    by (rewrite He1; reflexivity).
  eexists _, a', k. split; [exact Hrun|]. split; [exact Hk|].
  split; [exact Hname|]. split; [exact Hfree|]. split; [exact Hused|].
  set (existing := effects_of a c) in *. set (N := node_name n) in *.
  assert (H2 : stack_name N 2 = N +:+ " x2") by reflexivity.
  assert (H3 : stack_name N 3 = N +:+ " x3") by reflexivity.
  assert (H4 : stack_name N 4 = N +:+ " x4") by reflexivity.
  split; intros Hnames; (etransitivity; [exact Hname|]).
  - rewrite <- H4. f_equal.
    apply (first_free_unique existing N k 4); try assumption; try lia.
    + apply get_effect_None. rewrite Hnames, <- H2, <- H3.
      intros [Hn|[Hn|Hn]].
      * now apply stack_name_neq in Hn.
      * apply stack_name_inj in Hn. discriminate.
      * apply stack_name_inj in Hn. discriminate.
    + intros j Hj. apply get_effect_is_Some. apply Hnames.
      assert (j = 2 \/ j = 3)%nat as [-> | ->] by lia; auto.
  - rewrite <- H2. f_equal.
    apply (first_free_unique existing N k 2); try assumption; try lia.
    apply get_effect_None. rewrite Hnames. apply stack_name_neq.
Qed.

(** The goblin has Poison, Poison x2 and Poison x3: one more stacking Poison
    is named Poison x4.  The ogre has Poison alone: one more is named
    Poison x2. *)
Lemma C3_stacking_disambiguation_witness :
  let n := Example.ieffect "Poison" (DurInt 3) false true None None in
  let a := Example.ctx (InCombat Example.goblin) None ∅ None in
  let b := Example.ctx (InCombat Example.ogre) None ∅ None in
  map e_name (effects_of a Example.goblin) = ["Poison"; "Poison x2"; "Poison x3"] /\
  map e_name (effects_of b Example.ogre) = ["Poison"] /\
  (exists res a', Example.run n a = Returned (res, a') /\
                  e_name (effect res) = "Poison x4") /\
  (exists res b', Example.run n b = Returned (res, b') /\
                  e_name (effect res) = "Poison x2").
Proof.
  intros n a b. split; [reflexivity|]. split; [reflexivity|]. split.
  - destruct (C3_stacking_disambiguation (C := Example.collaborators) n a
                {| t_target := InCombat Example.goblin |} Example.goblin (Some 3)
                None None Example.poison
                eq_refl eq_refl eq_refl eq_refl eq_refl eq_refl eq_refl)
      as (res & a' & k & Hrun & _ & _ & _ & _ & Hx4 & _).
    exists res, a'. split; [exact Hrun|]. apply Hx4.
    intros nm.
    change (In nm ["Poison"; "Poison x2"; "Poison x3"] <->
            nm = "Poison" \/ nm = "Poison x2" \/ nm = "Poison x3").
    simpl. intuition congruence.
  - destruct (C3_stacking_disambiguation (C := Example.collaborators) n b
                {| t_target := InCombat Example.ogre |} Example.ogre (Some 3)
                None None Example.ogre_poison
                eq_refl eq_refl eq_refl eq_refl eq_refl eq_refl eq_refl)
      as (res & b' & k & Hrun & _ & _ & _ & _ & _ & Hx2).
    exists res, b'. split; [exact Hrun|]. apply Hx2.
    intros nm. change (In nm ["Poison"] <-> nm = "Poison").
    simpl. intuition congruence.
Defined.

(** Whatever [run] returns on a target in a combat, it is the effect of the
    stacking block with the chosen parent, added by the last call. *)
Lemma run_Returned_facts `{C : Collaborators} (n : node) (a : AutoCtx)
    (tgt : AutomationTarget) (c : Combatant) (res : IEffectResult) (a' : AutoCtx) :
  target a = Some tgt ->
  t_combatant tgt = Some c ->
  run n a = Returned (res, a') ->
  exists d e1 sp ep cp,
    stacking_block (node_stacking n) (effects_of a c) (created n a (Some c) d)
      = Returned (e1, sp) /\
    parenting (node_parent n) a = Returned ep /\
    concentration_spells (node_concentration n) c a = Returned cp /\
    effect res =
      match py_or (py_or sp ep) cp with Some p => set_parent e1 p | None => e1 end /\
    calls a' =
      CallAddEffect (c_id c) (effects_of a c) (effect res) ::
        match py_or (py_or sp ep) cp with
        | Some p => [CallSetParent e1 p]
        | None => []
        end ++ calls a /\
    metavars a' =
      match node_save_as n with
      | Some v => <[v := IEffectMetaVar (effect res)]> (metavars a)
      | None => metavars a
      end /\
    eval_duration (node_duration n) a = Returned d.
Proof.
  intros Htgt Hc Hrun.
  destruct (run_Returned_inv n a tgt c res a' Htgt Hc Hrun)
    as (d & cp & ep & Hd & Hconc & Hpar).
  destruct (run_Returned n a tgt c d cp ep Htgt Hc Hd Hconc Hpar)
    as (e1 & sp & a'' & Hblock & Hrun' & Hcalls & Hvars & _).
  cbv zeta in Hrun', Hcalls, Hvars.
  rewrite Hrun in Hrun'. injection Hrun' as -> ->.
  exists d, e1, sp, ep, cp. simpl. auto 10.
Qed.

(** C4, stack neutralization.  A node that stacks meets an effect of its name
    on the target.  Then [run] returns, unless the duration, the
    concentration block or the parenting block raises, and then with the
    error of that block.  Whatever the duration, the description and the
    concentration of the node, the effect that [run] returns has [-1] for
    duration and remaining, no description and no concentration, and it is
    the effect [run] added to the target. *)
Theorem C4_stack_neutralization `{C : Collaborators} (n : node) (a : AutoCtx)
    (tgt : AutomationTarget) (c : Combatant) (sp : InitiativeEffect) :
  target a = Some tgt ->
  t_combatant tgt = Some c ->
  node_stacking n = true ->
  get_effect (effects_of a c) (node_name n) = Some sp ->
  match run n a with
  | Returned (res, a') =>
      e_remaining (effect res) = Some (-1) /\
      e_duration (effect res) = Some (-1) /\
      e_desc (effect res) = None /\
      e_concentration (effect res) = false /\
      exists earlier,
        calls a' = CallAddEffect (c_id c) (effects_of a c) (effect res) :: earlier
  | Raised err =>
      eval_duration (node_duration n) a = Raised err \/
      concentration_spells (node_concentration n) c a = Raised err \/
      parenting (node_parent n) a = Raised err
  | OutOfFuel => False
  end.
Proof.
  intros Htgt Hc Hstk Hget.
  destruct (run n a) as [[res a']|err|] eqn:Hrun.
  - destruct (run_Returned_facts n a tgt c res a' Htgt Hc Hrun)
      as (d & e1 & sp' & ep & cp & Hblock & _ & _ & Heffect & Hcalls & _).
    destruct (stacking_block_Returned (node_stacking n) (effects_of a c)
                (created n a (Some c) d)) as (e1' & sp1 & Heq & Hsp & _ & Hsome).
    rewrite Hblock in Heq. injection Heq as <- <-.
    change (sp' = if node_stacking n
                  then get_effect (effects_of a c) (node_name n) else None) in Hsp.
    rewrite Hstk, Hget in Hsp. subst sp'.
    destruct Hsome as (nm & _ & He1); [eauto|].
    simpl in Heffect. rewrite Heffect, He1.
    repeat split; try reflexivity.
    rewrite <- He1, <- Heffect. eexists. exact Hcalls.
  - destruct (eval_duration_cases (node_duration n) a)
      as [[d Hd]|(expr & _ & _ & Hd)].
    2:{ rewrite (run_duration_Raised n a tgt _ Htgt Hd) in Hrun.
        injection Hrun as <-. now left. }
    right. rewrite (run_in_combat_eq n a tgt c d Htgt Hc Hd) in Hrun.
    destruct (concentration_spells_cases (node_concentration n) c a)
      as [(cp & Hconc & _)|(ce & _ & _ & _ & Hconc)].
    2:{ rewrite (run_in_combat_conc_Raised _ _ _ _ c _ (after_new a) _ Hconc) in Hrun.
        injection Hrun as <-. now left. }
    right.
    destruct (parenting_cases (node_parent n) a)
      as [(ep & Hpar)|(p & v & _ & _ & _ & _ & Hpar)].
    + destruct (run_in_combat_Returned (node_concentration n) (node_stacking n)
                  (node_save_as n) (node_parent n) c (created n a (Some c) d)
                  (after_new a) cp ep Hconc Hpar) as (e1 & sp' & a' & _ & Hrun' & _).
      rewrite Hrun' in Hrun. discriminate.
    + rewrite (run_in_combat_parenting_Raised _ _ _ _ c _ (after_new a) cp _
                 Hconc Hpar) in Hrun.
      now injection Hrun as <-.
  - exact (run_never_out_of_fuel n a Hrun).
Qed.

(** A stacking Poison on the poisoned goblin, asked by an [IEffect] node and
    by a [LegacyIEffect] node with a duration, a description and
    concentration: [run] returns, and what is added has none of them. *)
Lemma C4_stack_neutralization_witness :
  let n := Example.ieffect_described "Poison" (DurStr "1+2") "Stacks." true true in
  let l := Example.legacy "Poison" (DurInt 3) true true None None in
  let a := Example.ctx (InCombat Example.goblin) None ∅ (Some 5) in
  node_desc n = Some "Stacks." /\
  node_concentration n = true /\
  (exists res a',
     Example.run n a = Returned (res, a') /\
     e_remaining (effect res) = Some (-1) /\
     e_duration (effect res) = Some (-1) /\
     e_desc (effect res) = None /\
     e_concentration (effect res) = false) /\
  (exists res a',
     Example.run l a = Returned (res, a') /\
     e_remaining (effect res) = Some (-1) /\
     e_desc (effect res) = None /\
     e_concentration (effect res) = false).
Proof.
  intros n l a. split; [reflexivity|]. split; [reflexivity|]. split.
  - pose proof (C4_stack_neutralization (C := Example.collaborators) n a
                  {| t_target := InCombat Example.goblin |} Example.goblin
                  Example.poison eq_refl eq_refl eq_refl eq_refl) as Hn.
    unfold Example.run.
    destruct (run n a) as [[res a']|err|]; [|exfalso|contradiction].
    + destruct Hn as (Hrem & Hdur & Hdesc & Hconc & _).
      exists res, a'. auto.
    + destruct Hn as [Hn|[Hn|Hn]]; discriminate Hn.
  - pose proof (C4_stack_neutralization (C := Example.collaborators) l a
                  {| t_target := InCombat Example.goblin |} Example.goblin
                  Example.poison eq_refl eq_refl eq_refl eq_refl) as Hl.
    unfold Example.run.
    destruct (run l a) as [[res a']|err|]; [|exfalso|contradiction].
    + destruct Hl as (Hrem & _ & Hdesc & Hconc & _).
      exists res, a'. auto.
    + destruct Hl as [Hl|[Hl|Hl]]; discriminate Hl.
Defined.

(** C5, the claim fails: the cleric concentrates on Bless, and a stacking
    node named Bless that asks for concentration targets the cleric, who
    bears Bless.  The stacking block would clear the concentration of the
    new effect, but the guard comes first and reads the node: [run]
    raises. *)
Lemma C5_counterexample :
  let n := Example.ieffect "Bless" (DurInt 3) true true None None in
  let a := Example.ctx (InCombat Example.cleric) (Some Example.bless) ∅ None in
  node_stacking n = true /\
  node_concentration n = true /\
  get_effect (effects_of a Example.cleric) (node_name n) = Some Example.bless /\
  conc_effect a = Some Example.bless /\
  combatant_is Example.bless Example.cleric = true /\
  Example.run n a =
    Raised (InvalidArgument
      "Concentration spells cannot add concentration effects to the caster.").
Proof. repeat split; reflexivity. Qed.

(** C5, amended.  The guard is evaluated before the stacking block, on the
    concentration of the node and not of the effect.  So a node with
    stacking and concentration whose name is the name of an effect of the
    target, when the target is the caster and the spell has a concentration
    effect, makes [run] raise [InvalidArgument] (once the duration has
    evaluated): the stacking block is never reached. *)
Theorem C5_guard_before_stacking `{C : Collaborators} (n : node) (a : AutoCtx)
    (tgt : AutomationTarget) (c : Combatant) (ce sp : InitiativeEffect)
    (d : option Z) :
  target a = Some tgt ->
  t_combatant tgt = Some c ->
  eval_duration (node_duration n) a = Returned d ->
  node_stacking n = true ->
  node_concentration n = true ->
  get_effect (effects_of a c) (node_name n) = Some sp ->
  conc_effect a = Some ce ->
  combatant_is ce c = true ->
  run n a =
    Raised (InvalidArgument
      "Concentration spells cannot add concentration effects to the caster.").
Proof.
  intros Htgt Hc Hd _ Hconc _ Hce Hself.
  rewrite (run_in_combat_eq n a tgt c d Htgt Hc Hd).
  apply run_in_combat_conc_Raised.
  unfold concentration_spells.
  change (conc_effect (after_new a)) with (conc_effect a).
  now rewrite Hce, Hself, Hconc.
Qed.

Lemma C5_guard_before_stacking_witness :
  let n := Example.legacy "Bless" (DurStr "1+2") true true None None in
  let a := Example.ctx (InCombat Example.cleric) (Some Example.bless) ∅ None in
  get_effect (effects_of a Example.cleric) (node_name n) = Some Example.bless /\
  Example.run n a =
    Raised (InvalidArgument
      "Concentration spells cannot add concentration effects to the caster.").
Proof.
  intros n a. split; [reflexivity|].
  exact (C5_guard_before_stacking (C := Example.collaborators) n a
           {| t_target := InCombat Example.cleric |} Example.cleric
           Example.bless Example.bless (Some 3)
           eq_refl eq_refl eq_refl eq_refl eq_refl eq_refl eq_refl eq_refl).
Defined.

(** C6, the claim fails: a node named Poison that does not stack, on the
    poisoned goblin.  [add_effect] is called with an effect named Poison
    while the goblin has an effect named Poison. *)
Lemma C6_counterexample :
  let n := Example.ieffect "Poison" (DurInt 3) false false None None in
  let a := Example.ctx (InCombat Example.goblin) None ∅ None in
  exists res a',
    Example.run n a = Returned (res, a') /\
    calls a' = [CallAddEffect 2 (effects_of a Example.goblin) (effect res)] /\
    e_name (effect res) = "Poison" /\
    get_effect (effects_of a Example.goblin) (e_name (effect res)) = Some Example.poison.
Proof. eexists _, _. repeat split; reflexivity. Qed.

(** C6, amended.  When the node stacks, the effect that [run] adds has a
    name that no effect of the target has at the call of [add_effect], the
    only such call of the run; the target then has the effects it had at the
    entry. *)
Theorem C6_stacked_name_is_fresh `{C : Collaborators} (n : node) (a : AutoCtx)
    (tgt : AutomationTarget) (c : Combatant) (res : IEffectResult) (a' : AutoCtx) :
  target a = Some tgt ->
  t_combatant tgt = Some c ->
  node_stacking n = true ->
  run n a = Returned (res, a') ->
  exists new_calls,
    calls a' =
      CallAddEffect (c_id c) (effects_of a c) (effect res) :: new_calls ++ calls a /\
    Forall (fun x => is_add_effect x = false) new_calls /\
    get_effect (effects_of a c) (e_name (effect res)) = None /\
    forall x, In x (effects_of a c) -> e_name x <> e_name (effect res).
Proof.
  intros Htgt Hc Hstk Hrun.
  destruct (run_Returned_facts n a tgt c res a' Htgt Hc Hrun)
    as (d & e1 & sp & ep & cp & Hblock & _ & _ & Heffect & Hcalls & _).
  rewrite Hstk in Hblock. apply stacking_block_fresh in Hblock.
  assert (Hname : e_name (effect res) = e_name e1)
    by (rewrite Heffect; now destruct (py_or (py_or sp ep) cp)).
  eexists. split; [exact Hcalls|]. rewrite Hname.
  split; [|split; [exact Hblock|]].
  - destruct (py_or (py_or sp ep) cp); repeat constructor.
  - intros x Hin Heq. apply get_effect_None in Hblock. apply Hblock.
    rewrite <- Heq. now apply in_map.
Qed.

Lemma C6_stacked_name_is_fresh_witness :
  let n := Example.ieffect "Poison" (DurInt 3) false true None None in
  let a := Example.ctx (InCombat Example.goblin) None ∅ None in
  exists res a',
    Example.run n a = Returned (res, a') /\
    get_effect (effects_of a Example.goblin) (e_name (effect res)) = None.
Proof.
  intros n a.
  destruct (Example.run n a) as [[res a']| |] eqn:Hrun; try discriminate.
  exists res, a'. split; [reflexivity|].
  destruct (C6_stacked_name_is_fresh (C := Example.collaborators) n a
              {| t_target := InCombat Example.goblin |} Example.goblin
              res a' eq_refl eq_refl eq_refl Hrun)
    as (earlier & _ & _ & Hfresh & _).
  exact Hfresh.
Defined.

(** C7, the claim fails: on a stat block that is in no combat, a node with
    [save_as] returns its effect and leaves the metavariables as they
    were. *)
Lemma C7_counterexample :
  let n := Example.ieffect "Poison" (DurInt 3) false false (Some "fx") None in
  let a := Example.ctx (StatBlock 5) None ∅ None in
  node_save_as n = Some "fx" /\
  exists res a',
    Example.run n a = Returned (res, a') /\
    metavars a' !! "fx" = None /\
    metavars a' = metavars a.
Proof. split; [reflexivity|]. eexists _, _. repeat split; reflexivity. Qed.

(** C7, amended.  For a node with [save_as], when [run] returns: on a target
    in a combat the metavariable table is the one of the entry with the
    proxy of the returned effect under that name; on a target in no combat
    the table is the one of the entry, and no proxy is made. *)
Theorem C7_save_as_in_combat_only `{C : Collaborators} (n : node) (a : AutoCtx)
    (tgt : AutomationTarget) (v : string) (res : IEffectResult) (a' : AutoCtx) :
  target a = Some tgt ->
  node_save_as n = Some v ->
  run n a = Returned (res, a') ->
  match t_combatant tgt with
  | Some c =>
      metavars a' = <[v := IEffectMetaVar (effect res)]> (metavars a) /\
      metavars a' !! v = Some (IEffectMetaVar (effect res))
  | None => metavars a' = metavars a
  end.
Proof.
  intros Htgt Hsave Hrun.
  destruct (t_combatant tgt) as [c|] eqn:Hc.
  - destruct (run_Returned_facts n a tgt c res a' Htgt Hc Hrun)
      as (d & e1 & sp & ep & cp & _ & _ & _ & _ & _ & Hvars & _).
    rewrite Hsave in Hvars. split; [exact Hvars|].
    rewrite Hvars. apply lookup_insert_eq.
  - destruct (eval_duration_cases (node_duration n) a)
      as [[d Hd]|(expr & _ & _ & Hd)].
    + rewrite (run_detached_eq n a tgt d Htgt Hc Hd) in Hrun.
      injection Hrun as _ <-. reflexivity.
    + rewrite (run_duration_Raised n a tgt _ Htgt Hd) in Hrun. discriminate.
Qed.

Lemma C7_save_as_in_combat_only_witness :
  let n := Example.ieffect "Poison" (DurInt 3) false false (Some "fx") None in
  let a := Example.ctx (InCombat Example.ogre) None ∅ None in
  exists res a',
    Example.run n a = Returned (res, a') /\
    metavars a' !! "fx" = Some (IEffectMetaVar (effect res)).
Proof.
  intros n a.
  destruct (Example.run n a) as [[res a']| |] eqn:Hrun; try discriminate.
  exists res, a'. split; [reflexivity|].
  exact (proj2 (C7_save_as_in_combat_only (C := Example.collaborators) n a
                  {| t_target := InCombat Example.ogre |} "fx" res a'
                  eq_refl eq_refl Hrun)).
Defined.

(** C8, detached mode.  On a target that is no combatant, [run] either
    raises the error of the duration or returns; when it returns, it has made
    no call of [add_effect] nor any other call on an effect or a combatant,
    the effect lists of the combatants are those of the entry, the list of
    concentration conflicts is empty, and the effect has no owner and no
    combat. *)
Theorem C8_detached_mode `{C : Collaborators} (n : node) (a : AutoCtx)
    (tgt : AutomationTarget) :
  target a = Some tgt ->
  t_combatant tgt = None ->
  (exists res a',
     run n a = Returned (res, a') /\
     calls a' = calls a /\
     combatants a' = combatants a /\
     conc_conflict res = [] /\
     e_combatant (effect res) = None /\
     e_combat (effect res) = None) \/
  (exists expr,
     node_duration n = DurStr expr /\
     run n a =
       Raised (AutomationException (expr +:+ " is not an integer (in effect duration)"))).
Proof.
  intros Htgt Hc.
  destruct (eval_duration_cases (node_duration n) a)
    as [[d Hd]|(expr & Hexpr & _ & Hd)].
  - left. rewrite (run_detached_eq n a tgt d Htgt Hc Hd).
    eexists _, _. repeat split; reflexivity.
  - right. exists expr. split; [exact Hexpr|].
    exact (run_duration_Raised n a tgt _ Htgt Hd).
Qed.

Lemma C8_detached_mode_witness :
  let n := Example.ieffect "Poison" (DurInt 3) true true (Some "fx") (Some "src") in
  let a := Example.ctx (StatBlock 5) (Some Example.bless) ∅ None in
  exists res a',
    Example.run n a = Returned (res, a') /\
    calls a' = [] /\
    conc_conflict res = [] /\
    e_combatant (effect res) = None.
Proof.
  intros n a.
  destruct (C8_detached_mode (C := Example.collaborators) n a
              {| t_target := StatBlock 5 |} eq_refl eq_refl)
    as [(res & a' & Hrun & Hcalls & _ & Hconflict & Howner & _)
       |(expr & Hexpr & _)].
  - exists res, a'. auto.
  - discriminate Hexpr.
Defined.

(** C9, the claim fails, in two ways.  On a stat block that is in no combat,
    a node whose parent variable holds an [int] returns: the variable is not
    looked at.  On the goblin, a node whose parent variable holds [None]
    returns too, with no parent: a variable that holds [None] counts as a
    variable that is not there. *)
Lemma C9_counterexample :
  let n := Example.ieffect "Slow" (DurInt 3) false false None (Some "src") in
  let a := Example.ctx (StatBlock 5) None {[ "src" := VInt 5 ]} None in
  let b := Example.ctx (InCombat Example.goblin) None {[ "src" := VNone ]} None in
  node_parent n = Some "src" /\
  metavars a !! "src" = Some (VInt 5) /\
  (exists res a', Example.run n a = Returned (res, a')) /\
  metavars b !! "src" = Some VNone /\
  (exists res b', Example.run n b = Returned (res, b') /\ e_parent (effect res) = None).
Proof.
  repeat split; try reflexivity.
  - eexists _, _. reflexivity.
  - eexists _, _. split; reflexivity.
Qed.

(** C9, amended.  Take a node with a parent variable [p], on a run whose
    duration evaluates.  On a target in no combat the variable is not looked
    up and [run] returns.  On a target in a combat, once the concentration
    block has returned [cp]:
    - when the table holds under [p] a value that is neither [None] nor an
      [IEffectMetaVar], [run] raises [InvalidArgument] with a message that
      names [p] and the type of the value;
    - when [p] is not in the table, or holds [None], the explicit parent is
      [None] and [run] returns; the parent is the stack parent or else [cp];
    - when [p] holds an [IEffectMetaVar], the explicit parent is its effect
      and [run] returns; the parent is the stack parent or else that
      effect. *)
Theorem C9_explicit_parent_resolution `{C : Collaborators} (n : node) (a : AutoCtx)
    (tgt : AutomationTarget) (d : option Z) (p : string) :
  target a = Some tgt ->
  eval_duration (node_duration n) a = Returned d ->
  node_parent n = Some p ->
  match t_combatant tgt with
  | None => exists res a', run n a = Returned (res, a')
  | Some c =>
      forall cp, concentration_spells (node_concentration n) c a = Returned cp ->
      let sp := if node_stacking n
                then get_effect (effects_of a c) (node_name n) else None in
      match metavars a !! p with
      | None | Some VNone =>
          parenting (node_parent n) a = Returned None /\
          exists res a',
            run n a = Returned (res, a') /\
            e_parent (effect res) = e_id <$> py_or sp cp
      | Some (IEffectMetaVar e) =>
          parenting (node_parent n) a = Returned (Some e) /\
          exists res a',
            run n a = Returned (res, a') /\
            e_parent (effect res) = Some (e_id (default e sp))
      | Some v =>
          run n a =
            Raised (InvalidArgument
              ("Could not set IEffect parent: The variable `" +:+ p +:+
               "` is not an IEffectMetaVar (got `" +:+ type_name v +:+ "`)."))
      end
  end.
Proof.
  intros Htgt Hd Hp.
  destruct (t_combatant tgt) as [c|] eqn:Hc.
  - intros cp Hconc sp.
    assert (Hok : forall ep, parenting (node_parent n) a = Returned ep ->
              parenting (node_parent n) a = Returned ep /\
              exists res a', run n a = Returned (res, a') /\
                e_parent (effect res) = e_id <$> py_or (py_or sp ep) cp).
    { intros ep Hpar. split; [exact Hpar|].
      exact (run_chosen_parent n a tgt c d cp ep Htgt Hc Hd Hconc Hpar). }
    assert (Hbad : forall err, parenting (node_parent n) a = Raised err ->
              run n a = Raised err).
    { intros err Hpar. rewrite (run_in_combat_eq n a tgt c d Htgt Hc Hd).
      exact (run_in_combat_parenting_Raised _ _ _ _ c _ (after_new a) cp err
               Hconc Hpar). }
    rewrite Hp in Hok, Hbad |- *. unfold parenting in Hok, Hbad |- *.
    destruct (metavars a !! p) as [[| | | | |e]|];
      try (apply Hbad; reflexivity).
    + destruct (Hok None eq_refl) as [Hpar (res & a' & Hrun & Hparent)].
      split; [exact Hpar|]. exists res, a'. split; [exact Hrun|].
      rewrite Hparent. now destruct sp.
    + destruct (Hok (Some e) eq_refl) as [Hpar (res & a' & Hrun & Hparent)].
      split; [exact Hpar|]. exists res, a'. split; [exact Hrun|].
      rewrite Hparent. now destruct sp.
    + destruct (Hok None eq_refl) as [Hpar (res & a' & Hrun & Hparent)].
      split; [exact Hpar|]. exists res, a'. split; [exact Hrun|].
      rewrite Hparent. now destruct sp.
  - rewrite (run_detached_eq n a tgt d Htgt Hc Hd). eauto.
Qed.

(** On the goblin, a parent variable that holds an [int] makes [run] raise;
    the message names the variable and [int]. *)
Lemma C9_explicit_parent_resolution_witness :
  let n := Example.ieffect "Slow" (DurInt 3) false false None (Some "src") in
  let a := Example.ctx (InCombat Example.goblin) None {[ "src" := VInt 5 ]} None in
  metavars a !! "src" = Some (VInt 5) /\
  Example.run n a =
    Raised (InvalidArgument
      "Could not set IEffect parent: The variable `src` is not an IEffectMetaVar (got `int`).").
Proof.
  intros n a. split; [reflexivity|].
  exact (C9_explicit_parent_resolution (C := Example.collaborators) n a
           {| t_target := InCombat Example.goblin |} (Some 3) "src"
           eq_refl eq_refl eq_refl None eq_refl).
Defined.



(** * More on [run] *)

(** X1, the [raise] statements of [run] and their order.  [run] has four of
    them, and each is reached only when the ones before it are not (the
    calls [run] makes in between are taken to return):
    - without a target, [TargetException], whatever the node asks;
    - with a target, for a duration string that does not evaluate,
      [AutomationException] with the string, whatever the target is;
    - on a combatant, once the duration has evaluated, for a concentration
      node aimed at the combatant of the spell's concentration effect,
      [InvalidArgument], whatever the parent variable holds;
    - on a combatant, once the concentration block has returned, for a
      parent variable that holds a value that is neither [None] nor a proxy,
      [InvalidArgument] with the variable and the type. *)
Theorem X1_errors_of_run `{C : Collaborators} (n : node) (a : AutoCtx) :
  (target a = None -> run n a = Raised (TargetException no_target_message)) /\
  (forall tgt expr,
     target a = Some tgt -> node_duration n = DurStr expr ->
     parse_intexpression a expr = None ->
     run n a =
       Raised (AutomationException (expr +:+ " is not an integer (in effect duration)"))) /\
  (forall tgt c d ce,
     target a = Some tgt -> t_combatant tgt = Some c ->
     eval_duration (node_duration n) a = Returned d ->
     conc_effect a = Some ce -> combatant_is ce c = true ->
     node_concentration n = true ->
     run n a =
       Raised (InvalidArgument
         "Concentration spells cannot add concentration effects to the caster.")) /\
  (forall tgt c d cp p v,
     target a = Some tgt -> t_combatant tgt = Some c ->
     eval_duration (node_duration n) a = Returned d ->
     concentration_spells (node_concentration n) c a = Returned cp ->
     node_parent n = Some p -> metavars a !! p = Some v ->
     v <> VNone -> (forall e, v <> IEffectMetaVar e) ->
     run n a =
       Raised (InvalidArgument
         ("Could not set IEffect parent: The variable `" +:+ p +:+
          "` is not an IEffectMetaVar (got `" +:+ type_name v +:+ "`)."))).
Proof.
  repeat split.
  - intros Htgt.
    destruct n as [self|self]; simpl;
      [unfold LegacyIEffect_run | unfold IEffect_run]; now rewrite Htgt.
  - intros tgt expr Htgt Hexpr Hparse.
    apply (run_duration_Raised n a tgt _ Htgt).
    rewrite Hexpr. simpl. now rewrite Hparse.
  - intros tgt c d ce Htgt Hc Hd Hce Hself Hconc.
    rewrite (run_in_combat_eq n a tgt c d Htgt Hc Hd).
    apply run_in_combat_conc_Raised.
    unfold concentration_spells.
    change (conc_effect (after_new a)) with (conc_effect a).
    now rewrite Hce, Hself, Hconc.
  - intros tgt c d cp p v Htgt Hc Hd Hconc Hp Hv Hnone Hproxy.
    rewrite (run_in_combat_eq n a tgt c d Htgt Hc Hd).
    apply (run_in_combat_parenting_Raised _ _ _ _ c _ (after_new a) cp _ Hconc).
    unfold parenting. rewrite Hp.
    change (metavars (after_new a)) with (metavars a). rewrite Hv.
    destruct v as [| | | | |e0]; try reflexivity; exfalso;
      [now apply Hnone | now apply (Hproxy e0)].
Qed.

(** The four, each with the conditions of the later ones met as well: a
    node outside of a Target node; a node with a duration that does not
    evaluate, aimed at the concentrating cleric with an [int] under its
    parent variable; the same node with a duration that evaluates; and that
    node aimed at the goblin. *)
Lemma X1_errors_of_run_witness :
  let bad := Example.ieffect "Shield of Faith" (DurStr "oops") true false None
               (Some "src") in
  let n := Example.legacy "Shield of Faith" (DurStr "1+2") true false None
             (Some "src") in
  let self := Example.ctx (InCombat Example.cleric) (Some Example.bless)
                {[ "src" := VInt 5 ]} None in
  let other := Example.ctx (InCombat Example.goblin) (Some Example.bless)
                 {[ "src" := VInt 5 ]} None in
  Example.run bad Example.no_target = Raised (TargetException no_target_message) /\
  Example.run bad self =
    Raised (AutomationException "oops is not an integer (in effect duration)") /\
  Example.run n self =
    Raised (InvalidArgument
      "Concentration spells cannot add concentration effects to the caster.") /\
  Example.run n other =
    Raised (InvalidArgument
      "Could not set IEffect parent: The variable `src` is not an IEffectMetaVar (got `int`).").
Proof.
  intros bad n self other. split; [|split; [|split]].
  - exact (proj1 (X1_errors_of_run (C := Example.collaborators) bad Example.no_target)
             eq_refl).
  - exact (proj1 (proj2 (X1_errors_of_run (C := Example.collaborators) bad self))
             {| t_target := InCombat Example.cleric |} "oops" eq_refl eq_refl eq_refl).
  - exact (proj1 (proj2 (proj2 (X1_errors_of_run (C := Example.collaborators) n self)))
             {| t_target := InCombat Example.cleric |} Example.cleric (Some 3)
             Example.bless eq_refl eq_refl eq_refl eq_refl eq_refl eq_refl).
  - refine (proj2 (proj2 (proj2 (X1_errors_of_run (C := Example.collaborators) n other)))
             {| t_target := InCombat Example.goblin |} Example.goblin (Some 3)
             (Some Example.bless) "src" (VInt 5)
             eq_refl eq_refl eq_refl eq_refl eq_refl eq_refl _ _); discriminate.
Defined.

(** What [run] in a combat leaves alone, and what it queues. *)
Lemma run_in_combat_frame `{C : Collaborators} (conc stk : bool)
    (save par : option string) (c : Combatant) (e : InitiativeEffect)
    (a : AutoCtx) (res : IEffectResult) (a' : AutoCtx) :
  run_in_combat conc stk save par c e a = Returned (res, a') ->
  target a' = target a /\
  conc_effect a' = conc_effect a /\
  args_dur a' = args_dur a /\
  next_effect_id a' = next_effect_id a /\
  queued a' =
    (match conc_conflict res with
     | [] => []
     | l => ["**Concentration**: dropped " +:+ String.concat ", " (map e_name l)]
     end ++ ("**Effect**: " +:+ get_str (effect res)) :: queued a)%list.
Proof.
  unfold run_in_combat. intros Hrun.
  destruct (concentration_spells conc c a) as [cp|?|]; simpl in Hrun;
    try discriminate.
  destruct (stacking_block stk (effects_of a c) e) as [[e1 sp]|?|];
    simpl in Hrun; try discriminate.
  destruct (parenting par a) as [ep|?|]; simpl in Hrun; try discriminate.
  unfold choose_parent, call_add_effect in Hrun.
  destruct (py_or (py_or sp ep) cp) as [p|];
    rewrite ?effects_of_with_calls in Hrun;
    (match type of Hrun with
     | context [add_effect ?l ?x] => destruct (add_effect l x) as [effs conflict]
     end);
    injection Hrun as <- <-; destruct conflict, save; simpl; auto.
Qed.

(** X2, the frame of [run].  A run that returns leaves the target, the
    concentration effect and the [dur] argument of the context as they were;
    it writes no metavariable but the one named by [save_as], and none
    without [save_as]. *)
Theorem X2_run_frame `{C : Collaborators} (n : node) (a : AutoCtx)
    (res : IEffectResult) (a' : AutoCtx) :
  run n a = Returned (res, a') ->
  target a' = target a /\
  conc_effect a' = conc_effect a /\
  args_dur a' = args_dur a /\
  (forall v, node_save_as n <> Some v -> metavars a' !! v = metavars a !! v) /\
  (node_save_as n = None -> metavars a' = metavars a).
Proof.
  intros Hrun.
  destruct (target a) as [tgt|] eqn:Htgt.
  2:{ destruct n as [self|self]; simpl in Hrun;
        [unfold LegacyIEffect_run in Hrun | unfold IEffect_run in Hrun];
        rewrite Htgt in Hrun; discriminate. }
  destruct (eval_duration_cases (node_duration n) a)
    as [[d Hd]|(expr & _ & _ & Hd)].
  2:{ rewrite (run_duration_Raised n a tgt _ Htgt Hd) in Hrun. discriminate. }
  destruct (t_combatant tgt) as [c|] eqn:Hc.
  - pose proof Hrun as Hrun0.
    rewrite (run_in_combat_eq n a tgt c d Htgt Hc Hd) in Hrun0.
    apply run_in_combat_frame in Hrun0 as (Ht & Hce & Hdur & _ & _).
    destruct (run_Returned_facts n a tgt c res a' Htgt Hc Hrun)
      as (d' & e1 & sp & ep & cp & _ & _ & _ & _ & _ & Hvars & _).
    split; [rewrite Ht; exact Htgt|]. split; [exact Hce|]. split; [exact Hdur|].
    split.
    + intros v Hv. rewrite Hvars. destruct (node_save_as n) as [w|]; [|reflexivity].
      apply lookup_insert_ne. congruence.
    + intros Hnone. rewrite Hvars, Hnone. reflexivity.
  - rewrite (run_detached_eq n a tgt d Htgt Hc Hd) in Hrun.
    injection Hrun as _ <-. simpl. auto 10.
Qed.

Lemma X2_run_frame_witness :
  let n := Example.ieffect "Slow" (DurInt 3) false false (Some "fx") None in
  let a := Example.ctx (InCombat Example.goblin) (Some Example.bless)
             {[ "src" := IEffectMetaVar Example.hex ]} (Some 4) in
  exists res a',
    Example.run n a = Returned (res, a') /\
    conc_effect a' = Some Example.bless /\
    metavars a' !! "src" = Some (IEffectMetaVar Example.hex).
Proof.
  intros n a.
  destruct (Example.run n a) as [[res a']| |] eqn:Hrun; try discriminate.
  exists res, a'. split; [reflexivity|].
  destruct (X2_run_frame (C := Example.collaborators) n a res a' Hrun)
    as (_ & Hconc & _ & Hvars & _).
  split; [exact Hconc|].
  rewrite Hvars; [reflexivity | discriminate].
Defined.

(** X3, the messages of [run].  A run that returns has queued the message of
    the effect, rendered by [get_str], and after it, when [add_effect] has
    reported concentration effects that it dropped, one message with their
    names, separated by commas; those effects are the [conc_conflict] of the
    result.  On a target in no combat there is the first message only. *)
Theorem X3_run_messages `{C : Collaborators} (n : node) (a : AutoCtx)
    (tgt : AutomationTarget) (res : IEffectResult) (a' : AutoCtx) :
  target a = Some tgt ->
  run n a = Returned (res, a') ->
  queued a' =
    (match conc_conflict res with
     | [] => []
     | l => ["**Concentration**: dropped " +:+ String.concat ", " (map e_name l)]
     end ++ ("**Effect**: " +:+ get_str (effect res)) :: queued a)%list /\
  conc_conflict res =
    match t_combatant tgt with
    | Some c => snd (add_effect (effects_of a c) (effect res))
    | None => []
    end.
Proof.
  intros Htgt Hrun.
  destruct (eval_duration_cases (node_duration n) a)
    as [[d Hd]|(expr & _ & _ & Hd)].
  2:{ rewrite (run_duration_Raised n a tgt _ Htgt Hd) in Hrun. discriminate. }
  destruct (t_combatant tgt) as [c|] eqn:Hc.
  - pose proof Hrun as Hrun0.
    rewrite (run_in_combat_eq n a tgt c d Htgt Hc Hd) in Hrun0.
    apply run_in_combat_frame in Hrun0 as (_ & _ & _ & _ & Hq).
    split; [exact Hq|].
    destruct (run_Returned_inv n a tgt c res a' Htgt Hc Hrun)
      as (d' & cp & ep & _ & Hconc & Hpar).
    destruct (run_Returned n a tgt c d cp ep Htgt Hc Hd Hconc Hpar)
      as (e1 & sp & a'' & _ & Hrun' & _).
    cbv zeta in Hrun'. rewrite Hrun in Hrun'. injection Hrun' as -> _.
    reflexivity.
  - rewrite (run_detached_eq n a tgt d Htgt Hc Hd) in Hrun.
    injection Hrun as <- <-. split; reflexivity.
Qed.

(** The cleric, who concentrates on Bless, gets a second concentration
    effect from a spell without concentration effect: Bless is dropped, and
    the message says so. *)
Lemma X3_run_messages_witness :
  let n := Example.ieffect "Haste" (DurInt 10) true false None None in
  let a := Example.ctx (InCombat Example.cleric) None ∅ None in
  exists res a',
    Example.run n a = Returned (res, a') /\
    conc_conflict res = [Example.bless] /\
    queued a' = ["**Concentration**: dropped Bless"; "**Effect**: Haste"].
Proof.
  intros n a.
  destruct (Example.run n a) as [[res a']| |] eqn:Hrun; try discriminate.
  exists res, a'. split; [reflexivity|].
  destruct (X3_run_messages (C := Example.collaborators) n a
              {| t_target := InCombat Example.cleric |} res a' eq_refl Hrun)
    as [Hq Hconflict].
  assert (Hres : conc_conflict res = [Example.bless]).
  { rewrite Hconflict. vm_compute in Hrun. injection Hrun as <- _. reflexivity. }
  split; [exact Hres|]. rewrite Hq, Hres.
  vm_compute in Hrun. injection Hrun as <- _. reflexivity.
Defined.

(** The length and the slices of a string, in code points. *)
Lemma len_append (s t : string) : len (s +:+ t) = (len s + len t)%nat.
Proof.
  induction s as [|c s IH]; simpl; [reflexivity|].
  destruct (is_continuation c); simpl; now rewrite IH.
Qed.

Lemma len_slice_to (k : nat) (s : string) :
  len (slice_to k s) = Nat.min k (len s).
Proof.
  revert k. induction s as [|c s IH]; intros k; simpl.
  - now destruct k.
  - destruct (is_continuation c) eqn:Hc; simpl; rewrite ?Hc.
    + apply IH.
    + destruct k as [|k]; simpl; rewrite ?Hc; [reflexivity|]. now rewrite IH.
Qed.

(** A slice ends where a code point ends: what is left of the string does
    not begin with a continuation byte. *)
Lemma slice_to_prefix (k : nat) (s : string) :
  exists rest,
    s = slice_to k s +:+ rest /\
    match rest with String c _ => is_continuation c = false | EmptyString => True end.
Proof.
  revert k. induction s as [|c s IH]; intros k; simpl.
  - exists "". split; [reflexivity | exact I].
  - destruct (is_continuation c) eqn:Hc.
    + destruct (IH k) as (rest & Hrest & Hstart). exists rest.
      split; [|exact Hstart].
      change (String c s = String c (slice_to k s +:+ rest)). now f_equal.
    + destruct k as [|k].
      * exists (String c s). split; [reflexivity | exact Hc].
      * destruct (IH k) as (rest & Hrest & Hstart). exists rest.
        split; [|exact Hstart].
        change (String c s = String c (slice_to k s +:+ rest)). now f_equal.
Qed.

(** The description of the effect [run] returns is the one [run] evaluated,
    unless the stacking block has cleared it. *)
Lemma run_desc `{C : Collaborators} (n : node) (a : AutoCtx)
    (res : IEffectResult) (a' : AutoCtx) :
  run n a = Returned (res, a') ->
  e_desc (effect res) = None \/ e_desc (effect res) = eval_desc (node_desc n) a.
Proof.
  intros Hrun.
  destruct (target a) as [tgt|] eqn:Htgt.
  2:{ destruct n as [self|self]; simpl in Hrun;
        [unfold LegacyIEffect_run in Hrun | unfold IEffect_run in Hrun];
        rewrite Htgt in Hrun; discriminate. }
  destruct (t_combatant tgt) as [c|] eqn:Hc.
  - destruct (run_Returned_facts n a tgt c res a' Htgt Hc Hrun)
      as (d & e1 & sp & ep & cp & Hblock & _ & _ & Heffect & _).
    assert (He : e_desc (effect res) = e_desc e1)
      by (rewrite Heffect; now destruct (py_or (py_or sp ep) cp)).
    rewrite He.
    destruct (stacking_block_Returned (node_stacking n) (effects_of a c)
                (created n a (Some c) d)) as (e1' & sp1 & Heq & _ & Hnone & Hsome).
    rewrite Hblock in Heq. injection Heq as <- <-.
    destruct sp as [s|].
    + left. destruct Hsome as (nm & _ & ->); [eauto|]. reflexivity.
    + right. rewrite (Hnone eq_refl). reflexivity.
  - destruct (eval_duration_cases (node_duration n) a)
      as [[d Hd]|(expr & _ & _ & Hd)].
    + rewrite (run_detached_eq n a tgt d Htgt Hc Hd) in Hrun.
      injection Hrun as <- _. right. reflexivity.
    + rewrite (run_duration_Raised n a tgt _ Htgt Hd) in Hrun. discriminate.
Qed.

(** X4, the description of the effect.  When the effect [run] returns has a
    description [s], the node has a description [d] that is not empty, and
    with [full] the annotated [d]: if [full] has more than 500 code points,
    [s] is its first 500 code points and three dots, 503 code points in all,
    and the cut falls between two code points; otherwise [s] is [full].  So
    no effect of [run] has a description of more than 503 code points, and a
    node without description, or with the empty one, gives an effect without
    description. *)
Theorem X4_description_truncated `{C : Collaborators} (n : node) (a : AutoCtx)
    (res : IEffectResult) (a' : AutoCtx) (s : string) :
  run n a = Returned (res, a') ->
  e_desc (effect res) = Some s ->
  exists d,
    node_desc n = Some d /\ d <> "" /\
    (len s <= 503)%nat /\
    let full := parse_annostr a d in
    if (500 <? len full)%nat
    then exists first rest,
           full = first +:+ rest /\ len first = 500%nat /\
           match rest with String c _ => is_continuation c = false | EmptyString => True end /\
           s = first +:+ "..." /\ len s = 503%nat
    else s = full.
Proof.
  intros Hrun Hs.
  destruct (run_desc n a res a' Hrun) as [Hnone|Hdesc]; [congruence|].
  rewrite Hs in Hdesc. unfold eval_desc in Hdesc.
  destruct (node_desc n) as [d|]; [|discriminate].
  exists d. split; [reflexivity|].
  destruct d as [|ch d]; [discriminate|]. split; [discriminate|].
  set (full := parse_annostr a (String ch d)) in *. cbv zeta.
  destruct (500 <? len full)%nat eqn:Hlen.
  - apply Nat.ltb_lt in Hlen.
    injection Hdesc as ->.
    assert (Hfirst : len (slice_to 500 full) = 500%nat)
      by (rewrite len_slice_to; lia).
    assert (Hall : len (slice_to 500 full +:+ "...") = 503%nat)
      by (rewrite len_append, Hfirst; reflexivity).
    split; [lia|].
    destruct (slice_to_prefix 500 full) as (rest & Hrest & Hstart).
    exists (slice_to 500 full), rest. auto.
  - apply Nat.ltb_ge in Hlen. injection Hdesc as ->. split; [lia | reflexivity].
Qed.

(** A description of 600 accented letters, 1200 bytes, comes out with 503
    code points: 500 letters and the dots, 1003 bytes.  One of 300 accented
    letters, 600 bytes, comes out as it is, and so does one of seven
    letters. *)
Lemma X4_description_truncated_witness :
  let a := Example.ctx (InCombat Example.goblin) None ∅ None in
  len (Example.accented 600) = 600%nat /\
  (exists res a' s,
     Example.run (Example.described "Slow" (Example.accented 600) false) a
       = Returned (res, a') /\
     e_desc (effect res) = Some s /\ len s = 503%nat /\
     s = Example.accented 500 +:+ "...") /\
  len (Example.accented 300) = 300%nat /\
  String.length (Example.accented 300) = 600%nat /\
  (exists res a',
     Example.run (Example.described "Slow" (Example.accented 300) false) a
       = Returned (res, a') /\
     e_desc (effect res) = Some (Example.accented 300)) /\
  (exists res a',
     Example.run (Example.described "Slow" "Stacks." false) a = Returned (res, a') /\
     e_desc (effect res) = Some "Stacks.").
Proof.
  intros a. split; [reflexivity|]. split.
  - destruct (Example.run (Example.described "Slow" (Example.accented 600) false) a)
      as [[res a']| |] eqn:Hrun; try discriminate.
    destruct (e_desc (effect res)) as [s|] eqn:Hs.
    2:{ vm_compute in Hrun. injection Hrun as <- _. discriminate Hs. }
    exists res, a', s. split; [reflexivity|]. split; [exact Hs|].
    destruct (X4_description_truncated (C := Example.collaborators) _ a res a' s Hrun Hs)
      as (d & Hd & _ & _ & Hcases).
    injection Hd as <-. cbv zeta in Hcases.
    change (parse_annostr a (Example.accented 600)) with (Example.accented 600)
      in Hcases.
    change (500 <? len (Example.accented 600))%nat with true in Hcases.
    destruct Hcases as (first & rest & _ & _ & _ & _ & Hlen).
    split; [exact Hlen|].
    vm_compute in Hrun. injection Hrun as <- _.
    vm_compute in Hs. injection Hs as <-. reflexivity.
  - split; [reflexivity|]. split; [reflexivity|]. split.
    + destruct (Example.run (Example.described "Slow" (Example.accented 300) false) a)
        as [[res a']| |] eqn:Hrun; try discriminate.
      destruct (e_desc (effect res)) as [s|] eqn:Hs.
      2:{ vm_compute in Hrun. injection Hrun as <- _. discriminate Hs. }
      exists res, a'. split; [reflexivity|].
      destruct (X4_description_truncated (C := Example.collaborators) _ a res a' s
                  Hrun Hs) as (d & Hd & _ & _ & Hcases).
      injection Hd as <-. cbv zeta in Hcases.
      change (parse_annostr a (Example.accented 300)) with (Example.accented 300)
        in Hcases.
      change (500 <? len (Example.accented 300))%nat with false in Hcases.
      rewrite Hs, Hcases. reflexivity.
    + destruct (Example.run (Example.described "Slow" "Stacks." false) a)
        as [[res a']| |] eqn:Hrun; try discriminate.
      exists res, a'. split; [reflexivity|].
      vm_compute in Hrun. injection Hrun as <- _. reflexivity.
Defined.

(** X5, the effect of a node that does not stack.  When the node does not
    stack, or the target has no effect of its name, the effect [run] returns
    is the one the node asks for: its name, its concentration, its end flag,
    its evaluated description and payload; its duration is the [dur]
    argument or else the evaluated duration; its owner and combat are those
    of the target, or nobody on a target in no combat. *)
Theorem X5_unstacked_effect_as_asked `{C : Collaborators} (n : node) (a : AutoCtx)
    (tgt : AutomationTarget) (res : IEffectResult) (a' : AutoCtx) :
  target a = Some tgt ->
  run n a = Returned (res, a') ->
  (node_stacking n = false \/
   forall c, t_combatant tgt = Some c ->
     get_effect (effects_of a c) (node_name n) = None) ->
  e_name (effect res) = node_name n /\
  e_concentration (effect res) = node_concentration n /\
  e_end_on_turn_end (effect res) = node_end n /\
  e_desc (effect res) = eval_desc (node_desc n) a /\
  e_payload (effect res) = node_payload n a /\
  e_combatant (effect res) = c_id <$> t_combatant tgt /\
  e_combat (effect res) = c_combat <$> t_combatant tgt /\
  exists d,
    eval_duration (node_duration n) a = Returned d /\
    e_duration (effect res) = match args_dur a with Some o => Some o | None => d end.
Proof.
  intros Htgt Hrun Hplain.
  destruct (t_combatant tgt) as [c|] eqn:Hc.
  - destruct (run_Returned_facts n a tgt c res a' Htgt Hc Hrun)
      as (d & e1 & sp & ep & cp & Hblock & _ & _ & Heffect & _ & _ & Hd).
    destruct (stacking_block_Returned (node_stacking n) (effects_of a c)
                (created n a (Some c) d)) as (e1' & sp1 & Heq & Hsp & Hnone & _).
    rewrite Hblock in Heq. injection Heq as <- <-.
    change (sp = if node_stacking n
                 then get_effect (effects_of a c) (node_name n) else None) in Hsp.
    assert (Hsp' : sp = None).
    { rewrite Hsp. destruct Hplain as [-> | Hfree]; [reflexivity|].
      rewrite (Hfree c eq_refl). now destruct (node_stacking n). }
    rewrite (Hnone Hsp') in Heffect.
    assert (Hfields : forall {A} (f : InitiativeEffect -> A),
              (forall x p, f (set_parent x p) = f x) ->
              f (effect res) = f (created n a (Some c) d)).
    { intros A f Hf. rewrite Heffect.
      destruct (py_or (py_or sp ep) cp); [apply Hf | reflexivity]. }
    repeat split; try (apply Hfields; reflexivity).
    exists d. split; [exact Hd|].
    rewrite (Hfields _ e_duration) by reflexivity. reflexivity.
  - destruct (eval_duration_cases (node_duration n) a)
      as [[d Hd]|(expr & _ & _ & Hd)].
    + rewrite (run_detached_eq n a tgt d Htgt Hc Hd) in Hrun.
      injection Hrun as <- _. repeat split. exists d. split; [exact Hd|reflexivity].
    + rewrite (run_duration_Raised n a tgt _ Htgt Hd) in Hrun. discriminate.
Qed.

(** A legacy Poison that does not stack, on the poisoned goblin, with
    [dur 5]: it is one more Poison, with 5 rounds.  And a node whose
    description is 300 accented letters, 600 bytes: the effect has that
    description, whole. *)
Lemma X5_unstacked_effect_as_asked_witness :
  let n := Example.legacy "Poison" (DurStr "1+2") false false None None in
  let m := Example.ieffect_described "Slow" (DurInt 3) (Example.accented 300)
             false false in
  let a := Example.ctx (InCombat Example.goblin) None ∅ (Some 5) in
  (exists res a',
     Example.run n a = Returned (res, a') /\
     e_name (effect res) = "Poison" /\
     e_desc (effect res) = Some "Stacks." /\
     e_payload (effect res) = EffectArgs "-ac +1" /\
     e_combatant (effect res) = Some 2%nat /\
     e_duration (effect res) = Some 5) /\
  (exists res a',
     Example.run m a = Returned (res, a') /\
     e_desc (effect res) = Some (Example.accented 300)).
Proof.
  intros n m a. split.
  - destruct (Example.run n a) as [[res a']| |] eqn:Hrun; try discriminate.
    exists res, a'. split; [reflexivity|].
    destruct (X5_unstacked_effect_as_asked (C := Example.collaborators) n a
                {| t_target := InCombat Example.goblin |} res a' eq_refl Hrun
                (or_introl eq_refl))
      as (Hname & _ & _ & Hdesc & Hpayload & Howner & _ & d & Hd & Hdur).
    repeat split; assumption.
  - destruct (Example.run m a) as [[res a']| |] eqn:Hrun; try discriminate.
    exists res, a'. split; [reflexivity|].
    destruct (X5_unstacked_effect_as_asked (C := Example.collaborators) m a
                {| t_target := InCombat Example.goblin |} res a' eq_refl Hrun
                (or_introl eq_refl))
      as (_ & _ & _ & Hdesc & _).
    exact Hdesc.
Defined.





(** More fuel changes nothing to what the loop has found. *)
Lemma rename_loop_more_fuel `{P : Payloads} (fuel fuel' : nat)
    (existing : list InitiativeEffect) (N : string) (count : nat) (nm : string) :
  rename_loop fuel existing N count = Some nm ->
  (fuel <= fuel')%nat ->
  rename_loop fuel' existing N count = Some nm.
Proof.
  revert fuel' count. induction fuel as [|fuel IH]; intros fuel' count Hloop Hle;
    [discriminate|].
  destruct fuel' as [|fuel']; [lia|]. simpl in *.
  destruct (get_effect existing (stack_name N count)); [|exact Hloop].
  apply IH; [exact Hloop | lia].
Qed.

(** X7, the renaming loop ends.  For every node and every context [run]
    returns or raises: the loop never uses up the fuel it is run on, one unit
    more than the target has effects.  That fuel is no limit: from any count
    the loop finds a name with it, and finds the same name with any larger
    fuel. *)
Theorem X7_renaming_loop_ends `{C : Collaborators} (n : node) (a : AutoCtx) :
  ((exists res a', run n a = Returned (res, a')) \/ (exists err, run n a = Raised err)) /\
  forall (existing : list InitiativeEffect) (N : string) (count fuel : nat),
    exists nm,
      rename_loop (S (length existing)) existing N count = Some nm /\
      rename_loop (S (length existing) + fuel) existing N count = Some nm.
Proof.
  split.
  - pose proof (run_never_out_of_fuel n a) as Hfuel.
    destruct (run n a) as [[res a']|err|]; [eauto | eauto | contradiction].
  - intros existing N count fuel.
    destruct (rename_loop_enough (S (length existing)) existing N count) as [nm Hnm];
      [lia|].
    exists nm. split; [exact Hnm|].
    apply (rename_loop_more_fuel (S (length existing))); [exact Hnm | lia].
Qed.

(** X8, a saved effect as the parent of a later one.  A node with [save_as]
    has run on a combatant and returned; a later node names that variable as
    its parent and runs, on any combatant, in a context where the variable is
    still what the first run made it.  Then the effect of the first run is
    the parent of the effect of the second, unless the second stacks on an
    effect of its name, which then is the parent. *)
Theorem X8_saved_effect_is_parent `{C : Collaborators} (n1 n2 : node)
    (a a1 b b' : AutoCtx) (tgt tgt2 : AutomationTarget) (c c2 : Combatant)
    (v : string) (r1 r2 : IEffectResult) :
  target a = Some tgt ->
  t_combatant tgt = Some c ->
  node_save_as n1 = Some v ->
  run n1 a = Returned (r1, a1) ->
  metavars b !! v = metavars a1 !! v ->
  target b = Some tgt2 ->
  t_combatant tgt2 = Some c2 ->
  node_parent n2 = Some v ->
  run n2 b = Returned (r2, b') ->
  e_parent (effect r2) =
    Some (e_id (default (effect r1)
                  (if node_stacking n2
                   then get_effect (effects_of b c2) (node_name n2) else None))).
Proof.
  intros Htgt Hc Hsave Hrun1 Hkept Htgt2 Hc2 Hpar Hrun2.
  destruct (run_Returned_facts n1 a tgt c r1 a1 Htgt Hc Hrun1)
    as (_ & _ & _ & _ & _ & _ & _ & _ & _ & _ & Hvars & _).
  rewrite Hsave in Hvars.
  assert (Hv : metavars b !! v = Some (IEffectMetaVar (effect r1)))
    by (rewrite Hkept, Hvars; apply lookup_insert_eq).
  destruct (run_Returned_facts n2 b tgt2 c2 r2 b' Htgt2 Hc2 Hrun2)
    as (d & e1 & sp & ep & cp & Hblock & Hep & _ & Heffect & _).
  rewrite Hpar in Hep. unfold parenting in Hep. rewrite Hv in Hep.
  injection Hep as <-.
  destruct (stacking_block_Returned (node_stacking n2) (effects_of b c2)
              (created n2 b (Some c2) d)) as (e1' & sp1 & Heq & Hsp & _).
  rewrite Hblock in Heq. injection Heq as <- <-.
  change (sp = if node_stacking n2
               then get_effect (effects_of b c2) (node_name n2) else None) in Hsp.
  rewrite <- Hsp, Heffect. now destruct sp.
Qed.

(** The cleric marks the goblin and saves the mark; the next node names it as
    its parent. *)
Lemma X8_saved_effect_is_parent_witness :
  let n1 := Example.ieffect "Hunter's Mark" (DurInt 10) false false (Some "mark") None in
  let n2 := Example.ieffect "Marked" (DurInt 10) false false None (Some "mark") in
  let a := Example.ctx (InCombat Example.goblin) None ∅ None in
  exists r1 r2 a2,
    Example.run n1 a = Returned (r1, Example.after n1 a) /\
    Example.run n2 (Example.after n1 a) = Returned (r2, a2) /\
    e_name (effect r1) = "Hunter's Mark" /\
    e_parent (effect r2) = Some (e_id (effect r1)).
Proof.
  intros n1 n2 a.
  destruct (Example.run n1 a) as [[r1 a1]| |] eqn:Hrun1; try discriminate.
  assert (Ha1 : a1 = Example.after n1 a)
    by (unfold Example.after; fold (Example.run n1 a); now rewrite Hrun1).
  subst a1.
  destruct (Example.run n2 (Example.after n1 a)) as [[r2 a2]| |] eqn:Hrun2;
    try discriminate.
  exists r1, r2, a2. split; [reflexivity|]. split; [reflexivity|]. split.
  - vm_compute in Hrun1. injection Hrun1 as <-. reflexivity.
  - exact (X8_saved_effect_is_parent (C := Example.collaborators) n1 n2 a
             (Example.after n1 a) (Example.after n1 a) a2
             {| t_target := InCombat Example.goblin |}
             {| t_target := InCombat Example.goblin |}
             Example.goblin Example.goblin "mark" r1 r2
             eq_refl eq_refl eq_refl Hrun1 eq_refl eq_refl eq_refl eq_refl Hrun2).
Defined.

(** An effect added at the end of the list is found under its name when no
    earlier effect has it, and changes nothing for the other names. *)
Lemma get_effect_app `{P : Payloads} (existing : list InitiativeEffect)
    (e : InitiativeEffect) (nm : string) :
  get_effect existing nm = None ->
  get_effect (existing ++ [e])%list nm =
    if String.eqb (e_name e) nm then Some e else None.
Proof.
  unfold get_effect. induction existing as [|x xs IH]; simpl; [reflexivity|].
  destruct (String.eqb (e_name x) nm); [discriminate | exact IH].
Qed.

(** X9, a stacking node applied twice.  A node that stacks runs on a target
    that has no effect of its name [N] nor of the name [N x2]; [add_effect]
    puts the new effect at the end of the target's effects; the node runs
    again.  The first effect is named [N]; the second is named [N x2], has
    [-1] remaining and no description, and has the first for parent. *)
Theorem X9_stacking_node_twice `{C : Collaborators} (n : node) (a a1 a2 : AutoCtx)
    (tgt : AutomationTarget) (c : Combatant) (r1 r2 : IEffectResult) :
  target a = Some tgt ->
  t_combatant tgt = Some c ->
  node_stacking n = true ->
  get_effect (effects_of a c) (node_name n) = None ->
  get_effect (effects_of a c) (node_name n +:+ " x2") = None ->
  run n a = Returned (r1, a1) ->
  fst (add_effect (effects_of a c) (effect r1)) = (effects_of a c ++ [effect r1])%list ->
  run n a1 = Returned (r2, a2) ->
  e_name (effect r1) = node_name n /\
  e_name (effect r2) = node_name n +:+ " x2" /\
  e_remaining (effect r2) = Some (-1) /\
  e_desc (effect r2) = None /\
  e_parent (effect r2) = Some (e_id (effect r1)).
Proof.
  intros Htgt Hc Hstk Hfree Hfree2 Hrun1 Happend Hrun2.
  (* the first run *)
  destruct (run_Returned_inv n a tgt c r1 a1 Htgt Hc Hrun1)
    as (d & cp & ep & Hd & Hconc & Hpar).
  destruct (run_Returned n a tgt c d cp ep Htgt Hc Hd Hconc Hpar)
    as (e1 & sp & a1' & Hblock & Hrun1' & _ & _ & Hcombatants).
  cbv zeta in Hrun1', Hcombatants.
  rewrite Hrun1 in Hrun1'. injection Hrun1' as Hr1 <-.
  assert (Heffect1 : effect r1 =
            match py_or (py_or sp ep) cp with Some p => set_parent e1 p | None => e1 end)
    by (rewrite Hr1; reflexivity).
  rewrite <- Heffect1 in Hcombatants.
  destruct (stacking_block_Returned (node_stacking n) (effects_of a c)
              (created n a (Some c) d)) as (e1' & sp1 & Heq & Hsp & Hnone & _).
  rewrite Hblock in Heq. injection Heq as <- <-.
  change (sp = if node_stacking n
               then get_effect (effects_of a c) (node_name n) else None) in Hsp.
  rewrite Hstk, Hfree in Hsp. subst sp. rewrite (Hnone eq_refl) in Heffect1.
  assert (Hname1 : e_name (effect r1) = node_name n)
    by (rewrite Heffect1; now destruct (py_or (py_or None ep) cp)).
  (* the target after it *)
  assert (Htgt1 : target a1 = Some tgt).
  { pose proof Hrun1 as Hrun0.
    rewrite (run_in_combat_eq n a tgt c d Htgt Hc Hd) in Hrun0.
    apply run_in_combat_frame in Hrun0 as (Ht & _). rewrite Ht. exact Htgt. }
  assert (Heffects1 : effects_of a1 c = (effects_of a c ++ [effect r1])%list).
  { unfold effects_of at 1. rewrite Hcombatants, lookup_insert_eq. simpl.
    exact Happend. }
  assert (Hget1 : get_effect (effects_of a1 c) (node_name n) = Some (effect r1)).
  { rewrite Heffects1, (get_effect_app _ _ _ Hfree), Hname1, String.eqb_refl.
    reflexivity. }
  assert (Hget2 : get_effect (effects_of a1 c) (stack_name (node_name n) 2) = None).
  { change (stack_name (node_name n) 2) with (node_name n +:+ " x2").
    rewrite Heffects1, (get_effect_app _ _ _ Hfree2), Hname1.
    destruct (String.eqb_spec (node_name n) (node_name n +:+ " x2")) as [Heq|_];
      [|reflexivity].
    symmetry in Heq. exfalso. exact (stack_name_neq (node_name n) 2 Heq). }
  (* the second run *)
  destruct (run_Returned_facts n a1 tgt c r2 a2 Htgt1 Hc Hrun2)
    as (d2 & e2 & sp2 & ep2 & cp2 & Hblock2 & _ & _ & Heffect2 & _).
  destruct (stacking_block_Returned (node_stacking n) (effects_of a1 c)
              (created n a1 (Some c) d2)) as (e2' & sp2' & Heq & Hsp2 & _ & Hsome).
  rewrite Hblock2 in Heq. injection Heq as <- <-.
  change (sp2 = if node_stacking n
                then get_effect (effects_of a1 c) (node_name n) else None) in Hsp2.
  rewrite Hstk, Hget1 in Hsp2. subst sp2.
  destruct Hsome as (nm & Hloop & He2); [eauto|].
  change (rename_loop (S (length (effects_of a1 c))) (effects_of a1 c) (node_name n) 2
          = Some nm) in Hloop.
  simpl in Hloop. rewrite Hget2 in Hloop. injection Hloop as <-.
  simpl in Heffect2. rewrite Heffect2, He2.
  split; [exact Hname1|]. repeat split.
Qed.

(** Slow, with stacking, twice on the goblin: Slow, then Slow x2 under it. *)
Lemma X9_stacking_node_twice_witness :
  let n := Example.ieffect "Slow" (DurInt 3) false true None None in
  let a := Example.ctx (InCombat Example.goblin) None ∅ None in
  exists r1 r2 a2,
    Example.run n a = Returned (r1, Example.after n a) /\
    Example.run n (Example.after n a) = Returned (r2, a2) /\
    e_name (effect r1) = "Slow" /\
    e_name (effect r2) = "Slow x2" /\
    e_parent (effect r2) = Some (e_id (effect r1)).
Proof.
  intros n a.
  destruct (Example.run n a) as [[r1 a1]| |] eqn:Hrun1; try discriminate.
  assert (Ha1 : a1 = Example.after n a)
    by (unfold Example.after; fold (Example.run n a); now rewrite Hrun1).
  subst a1.
  destruct (Example.run n (Example.after n a)) as [[r2 a2]| |] eqn:Hrun2;
    try discriminate.
  exists r1, r2, a2. split; [reflexivity|]. split; [reflexivity|].
  assert (Happend : fst (Example.keep_one_per_name (effects_of a Example.goblin) (effect r1))
                    = (effects_of a Example.goblin ++ [effect r1])%list).
  { pose proof Hrun1 as Hr. vm_compute in Hr. injection Hr as <-. reflexivity. }
  destruct (X9_stacking_node_twice (C := Example.collaborators) n a
              (Example.after n a) a2 {| t_target := InCombat Example.goblin |}
              Example.goblin r1 r2 eq_refl eq_refl eq_refl eq_refl eq_refl
              Hrun1 Happend Hrun2)
    as (Hn1 & Hn2 & _ & _ & Hparent).
  split; [exact Hn1|]. split; [exact Hn2 | exact Hparent].
Defined.
